(** * DPDPA compliance checker: segmentation and checklist aggregation

    A shallow embedding of [app_run.py]:
    - [break_into_blocks], the line-based segmenter, with the Python string
      primitives it calls ([str.splitlines], [str.strip], [str.join]) and the
      regular expression of its heading test;
    - [compile_summary], the aggregator, over JSON values as [json.loads]
      returns them, with Python's exceptions as an error result;
    - the block loop of the "Run Compliance Check" button. *)

From Stdlib Require Import List NArith Bool String Ascii Lia.
From Stdlib Require Import DecimalString DecimalNat Permutation.
Import ListNotations.

Set Implicit Arguments.

(** ** Python strings as sequences of code points *)

Module PyStr.

Open Scope N_scope.

(** A Python [str] is a sequence of Unicode code points. *)
Definition char := N.
Definition text := list char.

Definition of_ascii (a : ascii) : char := N_of_ascii a.

(** Embedding of ASCII literals, used to write concrete inputs. *)
Fixpoint u (s : string) : text :=
  match s with
  | EmptyString => []
  | String a s' => of_ascii a :: u s'
  end.

Definition LF : char := 10.
Definition CR : char := 13.
Definition SP : char := 32.
Definition DOT : char := 46.

Definition between (lo hi c : char) : bool := (lo <=? c) && (c <=? hi).

(** [str.isspace] on one code point; also the class [\s] of [re] on [str]
    patterns and the characters removed by [str.strip()]. *)
Definition isspace (c : char) : bool :=
  between 9 13 c || between 28 32 c || (c =? 133) || (c =? 160)
  || (c =? 5760) || between 8192 8202 c || (c =? 8232) || (c =? 8233)
  || (c =? 8239) || (c =? 8287) || (c =? 12288).

(** The line boundaries of [str.splitlines]. *)
Definition is_linebreak (c : char) : bool :=
  between 10 13 c || between 28 30 c || (c =? 133) || (c =? 8232)
  || (c =? 8233).

(** [[A-Z]], [[a-z]], [[0-9]]. *)
Definition is_upper (c : char) : bool := between 65 90 c.
Definition is_lower (c : char) : bool := between 97 122 c.
Definition is_digit (c : char) : bool := between 48 57 c.

(** [str.splitlines()]: [cur] is the line being read, [after_cr] tells that
    the previous character was a carriage return, so that a line feed that
    follows belongs to the same boundary.  A last line is produced only when
    it is not empty. *)
Fixpoint splitlines_from (after_cr : bool) (cur : text) (s : text)
  : list text :=
  match s with
  | [] => match cur with [] => [] | _ => [cur] end
  | c :: rest =>
      if after_cr && (c =? LF) then splitlines_from false cur rest
      else if is_linebreak c then cur :: splitlines_from (c =? CR) [] rest
      else splitlines_from false (cur ++ [c]) rest
  end.

Definition splitlines (s : text) : list text := splitlines_from false [] s.

(** [str.lstrip()], [str.rstrip()], [str.strip()]. *)
Fixpoint lstrip (s : text) : text :=
  match s with
  | [] => []
  | c :: rest => if isspace c then lstrip rest else s
  end.

Definition rstrip (s : text) : text := rev (lstrip (rev s)).

Definition strip (s : text) : text := rstrip (lstrip s).

(** [sep.join(parts)]. *)
Fixpoint join (sep : text) (parts : list text) : text :=
  match parts with
  | [] => []
  | [x] => x
  | x :: rest => x ++ sep ++ join sep rest
  end.

(** Truth value of a [str]: non-empty. *)
Definition nonempty (s : text) : bool :=
  match s with [] => false | _ => true end.

End PyStr.

(** ** Regular expressions, as far as the heading pattern needs them *)

Module Re.
Import PyStr.

Inductive regex : Type :=
| Void : regex
| Eps : regex
| Class : (char -> bool) -> regex
| Seq : regex -> regex -> regex
| Alt : regex -> regex -> regex
| Star : regex -> regex.

Definition Plus (r : regex) : regex := Seq r (Star r).

Fixpoint nullable (r : regex) : bool :=
  match r with
  | Void => false
  | Eps => true
  | Class _ => false
  | Seq r1 r2 => nullable r1 && nullable r2
  | Alt r1 r2 => nullable r1 || nullable r2
  | Star _ => true
  end.

Fixpoint deriv (c : char) (r : regex) : regex :=
  match r with
  | Void => Void
  | Eps => Void
  | Class p => if p c then Eps else Void
  | Seq r1 r2 =>
      if nullable r1 then Alt (Seq (deriv c r1) r2) (deriv c r2)
      else Seq (deriv c r1) r2
  | Alt r1 r2 => Alt (deriv c r1) (deriv c r2)
  | Star r1 => Seq (deriv c r1) (Star r1)
  end.

(** [fullmatch r s]: the whole of [s] is a word of [r]. *)
Fixpoint fullmatch (r : regex) (s : text) : bool :=
  match s with
  | [] => nullable r
  | c :: rest => fullmatch (deriv c r) rest
  end.

(** [re.match('^(r)$', s)] is not [None]: [$] holds at the end of [s] and
    also just before a line feed that ends [s]. *)
Definition chop_newline (s : text) : option text :=
  match rev s with
  | c :: rest => if N.eqb c LF then Some (rev rest) else None
  | [] => None
  end.

Definition match_anchored (r : regex) (s : text) : bool :=
  fullmatch r s
  || match chop_newline s with
     | Some s' => fullmatch r s'
     | None => false
     end.

(** The words of a regular expression. *)
Inductive lang : regex -> text -> Prop :=
| lang_eps : lang Eps []
| lang_class p c : p c = true -> lang (Class p) [c]
| lang_seq r1 r2 s1 s2 : lang r1 s1 -> lang r2 s2 -> lang (Seq r1 r2) (s1 ++ s2)
| lang_alt_l r1 r2 s : lang r1 s -> lang (Alt r1 r2) s
| lang_alt_r r1 r2 s : lang r2 s -> lang (Alt r1 r2) s
| lang_star_nil r : lang (Star r) []
| lang_star_cons r s1 s2 :
    lang r s1 -> lang (Star r) s2 -> lang (Star r) (s1 ++ s2).

End Re.

(** ** The segmenter *)

Module Segmenter.
Import PyStr Re.

(** [[A-Za-z\s]] and [.] (any character but a line feed). *)
Definition is_alpha_or_space (c : char) : bool :=
  is_upper c || is_lower c || isspace c.
Definition is_dot (c : char) : bool := N.eqb c DOT.
Definition not_newline (c : char) : bool := negb (N.eqb c LF).

(** The group of the pattern: [[A-Z][A-Za-z\s]+] or [[0-9]+\.\s.*]. *)
Definition heading_pattern : regex :=
  Alt (Seq (Class is_upper) (Plus (Class is_alpha_or_space)))
      (Seq (Plus (Class is_digit))
           (Seq (Class is_dot) (Seq (Class isspace) (Star (Class not_newline))))).

(** [re.match] of the group between [^] and [$] on [stripped]. *)
Definition is_heading (stripped : text) : bool :=
  match_anchored heading_pattern stripped.

(** [' '.join(current_block).strip()] *)
Definition close_block (current_block : list text) : text :=
  strip (join [SP] current_block).

(** One iteration of the loop over [lines]; the state is
    [(blocks, current_block)]. *)
Definition step (st : list text * list text) (line : text)
  : list text * list text :=
  let '(blocks, current_block) := st in
  let stripped := strip line in
  if negb (nonempty stripped) then st
  else if is_heading stripped then
    match current_block with
    | [] => (blocks, [stripped])
    | _ :: _ => (blocks ++ [close_block current_block], [stripped])
    end
  else (blocks, current_block ++ [stripped]).

Definition break_into_blocks (t : text) : list text :=
  let '(blocks, current_block) := fold_left step (splitlines t) ([], []) in
  match current_block with
  | [] => blocks
  | _ :: _ => blocks ++ [close_block current_block]
  end.

End Segmenter.

(** ** Python values and exceptions *)

Module Py.

Open Scope string_scope.

(** What [json.loads] builds: [None], [bool], numbers (kept as their
    literal), [str], [list] and [dict] with string keys, in insertion
    order. *)
#[warnings="-register-all"]
Inductive value : Type :=
| VNone : value
| VBool : bool -> value
| VNum : string -> value
| VStr : string -> value
| VList : list value -> value
| VDict : list (string * value) -> value.

Inductive exn : Type :=
| KeyError | TypeError | AttributeError | JSONDecodeError.

Inductive result (A : Type) : Type :=
| Ok : A -> result A
| Raise : exn -> result A.

Arguments Ok {A} _.
Arguments Raise {A} _.

Definition bind {A B : Type} (m : result A) (k : A -> result B) : result B :=
  match m with
  | Ok a => k a
  | Raise e => Raise e
  end.

Notation "x <- m ;; k" := (bind m (fun x => k))
  (at level 61, m at next level, right associativity).

(** A [for] loop threading a state, left at the first exception. *)
Fixpoint foldM {A B : Type} (f : A -> B -> result A) (l : list B) (a : A)
  : result A :=
  match l with
  | [] => Ok a
  | x :: rest => a' <- f a x ;; foldM f rest a'
  end.

(** Dictionaries keep insertion order; assigning to a key that is present
    replaces its value in place. *)
Fixpoint dict_get {V : Type} (d : list (string * V)) (k : string) : option V :=
  match d with
  | [] => None
  | (k', v) :: rest => if String.eqb k' k then Some v else dict_get rest k
  end.

Fixpoint dict_set {V : Type} (d : list (string * V)) (k : string) (v : V)
  : list (string * V) :=
  match d with
  | [] => [(k, v)]
  | (k', v') :: rest =>
      if String.eqb k' k then (k, v) :: rest else (k', v') :: dict_set rest k v
  end.

Definition keys {V : Type} (d : list (string * V)) : list string :=
  map fst d.

Definition values {V : Type} (d : list (string * V)) : list V :=
  map snd d.

(** [obj[key]] for a string [key]. *)
Definition getitem (obj : value) (key : string) : result value :=
  match obj with
  | VDict d =>
      match dict_get d key with
      | Some v => Ok v
      | None => Raise KeyError
      end
  | _ => Raise TypeError
  end.

(** [obj[key] = v] for a string [key]. *)
Definition setitem (obj : value) (key : string) (v : value) : result value :=
  match obj with
  | VDict d => Ok (VDict (dict_set d key v))
  | _ => Raise TypeError
  end.

(** [obj.get(key, default)]. *)
Definition get (obj : value) (key : string) (default : value)
  : result value :=
  match obj with
  | VDict d =>
      match dict_get d key with
      | Some v => Ok v
      | None => Ok default
      end
  | _ => Raise AttributeError
  end.

Fixpoint chars (s : string) : list value :=
  match s with
  | EmptyString => []
  | String a s' => VStr (String a EmptyString) :: chars s'
  end.

(** The elements a [for] loop visits: those of a list, the keys of a
    dictionary, the characters of a string (one-character strings, which
    no key subscripts); the other values are not iterable. *)
Definition iter (obj : value) : result (list value) :=
  match obj with
  | VList l => Ok l
  | VDict d => Ok (map VStr (keys d))
  | VStr s => Ok (chars s)
  | _ => Raise TypeError
  end.

(** [v == s] for a string literal [s]. *)
Definition eq_str (v : value) (s : string) : bool :=
  match v with
  | VStr t => String.eqb t s
  | _ => false
  end.

End Py.

(** ** The aggregator *)

Module Aggregator.
Import Py.

Open Scope string_scope.

(** An entry of [section_4_checklist]. *)
Record checklist_item : Type := { id : string; text : string }.

(** An entry of ["Matched Blocks"]. *)
Record matched_block : Type :=
  { Block_ID : value; Status : value; Justification : value }.

(** A value of the [summary] dictionary. *)
Record item_summary : Type :=
  { Checklist_Item_ID : string;
    Final_Status : string;
    Matched_Blocks : list matched_block }.

Definition summary_dict := list (string * item_summary).

Definition section_4_checklist : list checklist_item :=
  [ {| id := "4.1"; text := "The policy must state that personal data is processed only as per the provisions of the Digital Personal Data Protection Act, 2023." |};
    {| id := "4.2"; text := "The policy must confirm that personal data is processed only for a lawful purpose." |};
    {| id := "4.3"; text := "The policy must define lawful purpose as any purpose not expressly forbidden by law." |};
    {| id := "4.4"; text := "The policy must include a statement that personal data is processed only with the consent of the Data Principal." |} ].

(** First loop: one entry per checklist item. *)
Definition init_entry (item : checklist_item) : item_summary :=
  {| Checklist_Item_ID := id item;
     Final_Status := "Missing";
     Matched_Blocks := [] |}.

Definition init_summary (checklist : list checklist_item) : summary_dict :=
  fold_left (fun summary item => dict_set summary (id item) (init_entry item))
            checklist [].

Definition append_match (info : item_summary) (m : matched_block)
  : item_summary :=
  {| Checklist_Item_ID := Checklist_Item_ID info;
     Final_Status := Final_Status info;
     Matched_Blocks := (Matched_Blocks info ++ [m])%list |}.

(** [summary[item_id]["Matched Blocks"].append(m)]: the key may be any
    value of the evaluation; lists and dictionaries are unhashable, the
    other values are hashable and equal to no other key than themselves. *)
Definition record_match (summary : summary_dict) (item_id : value)
                        (m : matched_block) : result summary_dict :=
  match item_id with
  | VStr k =>
      match dict_get summary k with
      | Some info => Ok (dict_set summary k (append_match info m))
      | None => Raise KeyError
      end
  | VList _ | VDict _ => Raise TypeError
  | _ => Raise KeyError
  end.

(** Body of the loop over [block["Checklist Evaluation"]]. *)
Definition merge_item (block_id : value) (summary : summary_dict)
                      (item : value) : result summary_dict :=
  item_id <- getitem item "Checklist Item ID" ;;
  status <- getitem item "Status" ;;
  if negb (eq_str status "Missing") then
    justification <- get item "Justification" (VStr "") ;;
    record_match summary item_id
      {| Block_ID := block_id; Status := status;
         Justification := justification |}
  else Ok summary.

(** Body of the loop over [all_block_results]. *)
Definition merge_block (summary : summary_dict) (block : value)
  : result summary_dict :=
  block_id <- getitem block "block_id" ;;
  evaluation <- getitem block "Checklist Evaluation" ;;
  items <- iter evaluation ;;
  foldM (merge_item block_id) items summary.

(** Third loop: the final status from the recorded statuses. *)
Definition statuses (info : item_summary) : list value :=
  map Status (Matched_Blocks info).

Definition mem_str (s : string) (l : list value) : bool :=
  existsb (fun v => eq_str v s) l.

Definition finalize (info : item_summary) : item_summary :=
  if mem_str "Explicitly Mentioned" (statuses info) then
    {| Checklist_Item_ID := Checklist_Item_ID info;
       Final_Status := "Explicitly Mentioned";
       Matched_Blocks := Matched_Blocks info |}
  else if mem_str "Partially Mentioned" (statuses info) then
    {| Checklist_Item_ID := Checklist_Item_ID info;
       Final_Status := "Partially Mentioned";
       Matched_Blocks := Matched_Blocks info |}
  else info.

Definition compile_summary (checklist : list checklist_item)
                           (all_block_results : list value)
  : result (list item_summary) :=
  summary <- foldM merge_block all_block_results (init_summary checklist) ;;
  Ok (map finalize (values summary)).

End Aggregator.

(** ** The block loop of "Run Compliance Check" *)

Module App.
Import Py Aggregator.

Open Scope string_scope.

(** [f"BLOCK{i}"] *)
Definition block_label (i : nat) : string :=
  "BLOCK" ++ NilEmpty.string_of_uint (Nat.to_uint i).

(** The expander of one block: every item is subscripted for its id and its
    status, and for its justification when it has one. *)
Definition show_item (item : value) : result unit :=
  _ <- getitem item "Checklist Item ID" ;;
  _ <- getitem item "Status" ;;
  match item with
  | VDict d =>
      match dict_get d "Justification" with
      | Some _ => _ <- getitem item "Justification" ;; Ok tt
      | None => Ok tt
      end
  | _ => Raise TypeError
  end.

Definition show_block (parsed : value) : result unit :=
  evaluation <- getitem parsed "Checklist Evaluation" ;;
  items <- iter evaluation ;;
  foldM (fun _ item => show_item item) items tt.

(** The [try] body for block [i], entered once [call_gpt] has returned.
    [response] is the outcome of [json.loads(gpt_response)]: [None] when it
    raises, the parsed value otherwise.  The result is [all_block_results]
    after the body and how the body ended. *)
Definition try_block (i : nat) (response : option value)
                     (all_block_results : list value)
  : list value * result unit :=
  match response with
  | None => (all_block_results, Raise JSONDecodeError)
  | Some parsed =>
      match setitem parsed "block_id" (VStr (block_label i)) with
      | Raise e => (all_block_results, Raise e)
      | Ok parsed' =>
          ((all_block_results ++ [parsed'])%list, show_block parsed')
      end
  end.

(** The loop over [enumerate(blocks, start=1)]; the state is
    [all_block_results] and the numbers of the blocks reported by
    [st.error]. *)
Fixpoint block_loop (i : nat) (responses : list (option value))
                    (st : list value * list nat) : list value * list nat :=
  match responses with
  | [] => st
  | response :: rest =>
      let '(all_block_results, errors) := st in
      let '(all', outcome) := try_block i response all_block_results in
      block_loop (S i) rest
        (all', match outcome with
               | Ok _ => errors
               | Raise _ => (errors ++ [i])%list
               end)
  end.

(** The run: the loop, then [compile_summary] outside any handler. *)
Definition run_compliance_check (responses : list (option value))
  : result (list item_summary) * list nat :=
  let '(all_block_results, errors) := block_loop 1 responses ([], []) in
  (compile_summary section_4_checklist all_block_results, errors).

End App.

(** ** Vocabulary of the statements *)

Module Shapes.
Import PyStr Segmenter.

Open Scope N_scope.

(** The non-blank lines of a text, each stripped, in order. *)
Definition stripped_lines (t : text) : list text :=
  filter nonempty (map strip (splitlines t)).

(** The non-blank lines of a text as they stand, in order. *)
Definition nonblank_lines (t : text) : list text :=
  filter (fun line => nonempty (strip line)) (splitlines t).

(** What the two alternatives of the heading pattern accept. *)
Definition capital_heading (s : text) : Prop :=
  exists c rest,
    s = c :: rest /\ is_upper c = true /\ rest <> []
    /\ forallb is_alpha_or_space rest = true.

Definition numbered_word (s : text) : Prop :=
  exists digits w rest,
    s = digits ++ DOT :: w :: rest /\ digits <> []
    /\ forallb is_digit digits = true /\ isspace w = true
    /\ forallb not_newline rest = true.

(** The second alternative on a line of a text, which holds no line feed:
    digits, a period, a white-space character, then anything. *)
Definition numbered_heading (s : text) : Prop :=
  exists digits w rest,
    s = digits ++ DOT :: w :: rest /\ digits <> []
    /\ forallb is_digit digits = true /\ isspace w = true.

(** A text that begins and ends with a character that is not white space. *)
Definition solid (s : text) : Prop :=
  (exists c rest, s = c :: rest /\ isspace c = false)
  /\ (exists c front, s = front ++ [c] /\ isspace c = false).

(** The state of the segmenter's loop seen as groups of lines: the closed
    blocks are the joined groups [G], no group is empty, and every line
    held is solid. *)
Definition grouped (G : list (list text)) (st : list text * list text)
  : Prop :=
  fst st = map (join [SP]) G
  /\ Forall (fun g => g <> []) G
  /\ Forall solid (List.concat G ++ snd st).

(** The lines of a state, closed blocks first. *)
Definition held (G : list (list text)) (st : list text * list text)
  : list text :=
  List.concat G ++ snd st.

(** The heading test in the words of the specification: (a) a line made
    only of capitalized words and spaces, (b) a line that begins with a
    numeric marker, a period and a space. *)
Fixpoint words_from (cur : text) (s : text) : list text :=
  match s with
  | [] => match cur with [] => [] | _ => [cur] end
  | c :: rest =>
      if c =? SP then
        match cur with
        | [] => words_from [] rest
        | _ => cur :: words_from [] rest
        end
      else words_from (cur ++ [c]) rest
  end.

Definition words (s : text) : list text := words_from [] s.

Definition capitalized (w : text) : bool :=
  match w with c :: _ => is_upper c | [] => false end.

Definition spec_capitalized_line (s : text) : bool :=
  nonempty s
  && forallb (fun c => is_upper c || is_lower c || (c =? SP)) s
  && forallb capitalized (words s).

Fixpoint after_digits (s : text) : text :=
  match s with
  | c :: rest => if is_digit c then after_digits rest else s
  | [] => []
  end.

Definition spec_numbered_line (s : text) : bool :=
  match s with
  | c :: _ =>
      is_digit c
      && match after_digits s with
         | d :: sp :: _ => (d =? DOT) && (sp =? SP)
         | _ => false
         end
  | [] => false
  end.

Definition spec_heading (s : text) : bool :=
  spec_capitalized_line s || spec_numbered_line s.

(** The single block in the words of the specification: the non-blank
    lines joined with single spaces, the result trimmed. *)
Definition spec_single_block (t : text) : text :=
  strip (join [SP] (nonblank_lines t)).

End Shapes.

Module Reports.
Import Py Aggregator.

Open Scope string_scope.

Definition is_ok {A : Type} (r : result A) : bool :=
  match r with Ok _ => true | Raise _ => false end.

(** The items the merge loop visits in a block. *)
Definition entries_of (block : value) : list value :=
  match getitem block "Checklist Evaluation" with
  | Ok evaluation =>
      match iter evaluation with
      | Ok items => items
      | Raise _ => []
      end
  | Raise _ => []
  end.

(** The record an item adds to the matched blocks of the checklist item
    [k]: none unless the item names [k] with a status other than
    "Missing". *)
Definition item_match (k : string) (block_id : value) (item : value)
  : list matched_block :=
  match getitem item "Checklist Item ID", getitem item "Status" with
  | Ok (VStr k'), Ok status =>
      if String.eqb k' k && negb (eq_str status "Missing") then
        match get item "Justification" (VStr "") with
        | Ok justification =>
            [ {| Block_ID := block_id; Status := status;
                 Justification := justification |} ]
        | Raise _ => []
        end
      else []
  | _, _ => []
  end.

Definition block_matches (k : string) (block : value) : list matched_block :=
  match getitem block "block_id" with
  | Ok block_id => flat_map (item_match k block_id) (entries_of block)
  | Raise _ => []
  end.

(** Every record for [k], in the order the blocks and their items are
    processed. *)
Definition matches (k : string) (all_block_results : list value)
  : list matched_block :=
  flat_map (block_matches k) all_block_results.

(** The summary of item [k] with the records [ms]. *)
Definition summary_of (k : string) (ms : list matched_block) : item_summary :=
  finalize {| Checklist_Item_ID := k;
              Final_Status := "Missing";
              Matched_Blocks := ms |}.

(** The keys of [summary] after the first loop: the checklist ids, each at
    the place of its first occurrence. *)
Fixpoint add_key (ks : list string) (k : string) : list string :=
  match ks with
  | [] => [k]
  | k' :: rest => if String.eqb k' k then ks else k' :: add_key rest k
  end.

Definition distinct_ids (checklist : list checklist_item) : list string :=
  fold_left add_key (map id checklist) [].

(** The block evaluations on which the merge loop raises nothing: every
    block has a block id and an iterable evaluation, every item has an id
    and a status, and an item whose status is not "Missing" names an id of
    [ids]. *)
Definition item_ok (ids : list string) (item : value) : bool :=
  match getitem item "Checklist Item ID", getitem item "Status" with
  | Ok item_id, Ok status =>
      eq_str status "Missing"
      || match item_id with
         | VStr k => existsb (String.eqb k) ids
         | _ => false
         end
  | _, _ => false
  end.

Definition block_ok (ids : list string) (block : value) : bool :=
  match getitem block "block_id", getitem block "Checklist Evaluation" with
  | Ok _, Ok evaluation =>
      match iter evaluation with
      | Ok items => forallb (item_ok ids) items
      | Raise _ => false
      end
  | _, _ => false
  end.

Definition well_formed (checklist : list checklist_item)
                       (all_block_results : list value) : bool :=
  forallb (block_ok (map id checklist)) all_block_results.

(** [isinstance(v, str)] *)
Definition is_string (v : value) : bool :=
  match v with
  | VStr _ => true
  | _ => false
  end.

(** Adding records to the entries of a summary dictionary, key by key. *)
Definition extend (info : item_summary) (ms : list matched_block)
  : item_summary :=
  {| Checklist_Item_ID := Checklist_Item_ID info;
     Final_Status := Final_Status info;
     Matched_Blocks := (Matched_Blocks info ++ ms)%list |}.

Definition extend_all (f : string -> list matched_block) (s : summary_dict)
  : summary_dict :=
  map (fun kv => (fst kv, extend (snd kv) (f (fst kv)))) s.

Definition blank (k : string) : string * item_summary :=
  (k, {| Checklist_Item_ID := k; Final_Status := "Missing";
         Matched_Blocks := [] |}).

End Reports.

(** ** Concrete evaluations *)

Module Examples.
Import Py Aggregator.

Open Scope string_scope.

(** An item of a "Checklist Evaluation" list. *)
Definition entry (item_id status : string) (justification : option string)
  : value :=
  VDict (("Checklist Item ID", VStr item_id) :: ("Status", VStr status)
         :: match justification with
            | Some j => [("Justification", VStr j)]
            | None => []
            end).

(** A parsed response, before and after the loop gives it a block id. *)
Definition response (entries : list value) : value :=
  VDict [("Checklist Evaluation", VList entries)].

Definition evaluation (block_id : string) (entries : list value) : value :=
  VDict [("Checklist Evaluation", VList entries); ("block_id", VStr block_id)].

Definition two_blocks : list value :=
  [ evaluation "BLOCK1" [entry "4.1" "Partially Mentioned" (Some "in part")];
    evaluation "BLOCK2" [entry "4.1" "Explicitly Mentioned" (Some "states X");
                         entry "4.2" "Missing" None;
                         entry "4.3" "Partially Mentioned" None] ].

End Examples.

(** ** Text extraction and further vocabulary *)

Module Pdf.
Import PyStr.

(** [extract_text_from_pdf]: [pages] are the texts [page.get_text()]
    returns for the pages of the document, in page order; the function
    joins them with line feeds. *)
Definition extract_text_from_pdf (pages : list text) : text :=
  join [LF] pages.

End Pdf.

Module Counts.
Import PyStr Segmenter.

(** The heading lines among stripped lines. *)
Definition count_headings (lines : list text) : nat :=
  List.length (filter is_heading lines).

(** The blocks the loop holds: the closed ones and the one being
    accumulated. *)
Definition held_blocks (st : list text * list text) : nat :=
  (List.length (fst st)
   + match snd st with [] => 0 | _ :: _ => 1 end)%nat.

(** Groups of stripped lines cut at the headings: no group is empty, no
    line after the first of a group is a heading, and every group but the
    first begins with a heading. *)
Definition plain_tail (g : list text) : Prop :=
  match g with
  | [] => False
  | _ :: rest => forallb (fun x => negb (is_heading x)) rest = true
  end.

Definition headed (g : list text) : Prop :=
  match g with
  | [] => False
  | x :: _ => is_heading x = true
  end.

Definition cut_at_headings (G : list (list text)) : Prop :=
  match G with
  | [] => True
  | g0 :: Gs => plain_tail g0 /\ Forall (fun g => headed g /\ plain_tail g) Gs
  end.

(** The same for a state of the loop: the closed groups [G] and the lines
    being accumulated. *)
Definition cut_state (G : list (list text)) (st : list text * list text)
  : Prop :=
  match snd st with
  | [] => G = []
  | _ :: _ => cut_at_headings (G ++ [snd st])
  end.

End Counts.

Module Runs.
Import Py Aggregator App.

Open Scope string_scope.

(** The place of a final status in the precedence. *)
Definition rank (status : string) : nat :=
  if String.eqb status "Explicitly Mentioned" then 2
  else if String.eqb status "Partially Mentioned" then 1
  else 0.

(** The responses that are JSON objects, each with the label of its
    position, counted from [i]. *)
Fixpoint labelled (i : nat) (responses : list (option value)) : list value :=
  match responses with
  | [] => []
  | Some (VDict d) :: rest =>
      VDict (dict_set d "block_id" (VStr (block_label i)))
      :: labelled (S i) rest
  | _ :: rest => labelled (S i) rest
  end.

(** A response in the format the prompt asks for, naming only ids of
    [ids]: an object whose "Checklist Evaluation" is a list of objects,
    each with a string id of [ids] and a status. *)
Definition good_item (ids : list string) (item : value) : bool :=
  match item with
  | VDict di =>
      match dict_get di "Checklist Item ID", dict_get di "Status" with
      | Some (VStr k), Some _ => existsb (String.eqb k) ids
      | _, _ => false
      end
  | _ => false
  end.

Definition good_response (ids : list string) (response : option value)
  : bool :=
  match response with
  | Some (VDict d) =>
      match dict_get d "Checklist Evaluation" with
      | Some (VList items) => forallb (good_item ids) items
      | _ => false
      end
  | _ => false
  end.

(** Two blocks made from the same parsed response, whatever their block
    ids. *)
Definition same_response (b b' : value) : Prop :=
  exists d v v',
    b = VDict (dict_set d "block_id" v)
    /\ b' = VDict (dict_set d "block_id" v').

(** A matched block without its block id. *)
Definition finding (m : matched_block) : value * value :=
  (Status m, Justification m).

End Runs.

(** * Properties of the segmenter *)

Module ReFacts.
Import PyStr Re.

Lemma lang_void_inv (s : text) : lang Void s <-> False.
Proof. split; intro H; inversion H. Qed.

Lemma lang_eps_inv (s : text) : lang Eps s <-> s = [].
Proof.
  split; intro H.
  - inversion H. reflexivity.
  - subst. constructor.
Qed.

Lemma lang_class_inv (p : char -> bool) (s : text) :
  lang (Class p) s <-> exists c, s = [c] /\ p c = true.
Proof.
  split.
  - intro H. inversion H; subst. eauto.
  - intros (c & -> & H). constructor. assumption.
Qed.

Lemma lang_seq_inv (r1 r2 : regex) (s : text) :
  lang (Seq r1 r2) s <-> exists s1 s2, s = s1 ++ s2 /\ lang r1 s1 /\ lang r2 s2.
Proof.
  split.
  - intro H. inversion H; subst. eauto.
  - intros (s1 & s2 & -> & H1 & H2). constructor; assumption.
Qed.

Lemma lang_alt_inv (r1 r2 : regex) (s : text) :
  lang (Alt r1 r2) s <-> lang r1 s \/ lang r2 s.
Proof.
  split.
  - intro H. inversion H; subst; auto.
  - intros [H | H]; [apply lang_alt_l | apply lang_alt_r]; assumption.
Qed.

Lemma nullable_lang (r : regex) : nullable r = true <-> lang r [].
Proof.
  induction r; simpl.
  - rewrite lang_void_inv. split; [discriminate | tauto].
  - rewrite lang_eps_inv. tauto.
  - rewrite lang_class_inv. split; [discriminate|].
    intros (c & H & _). discriminate.
  - rewrite andb_true_iff, IHr1, IHr2, lang_seq_inv. split.
    + intros [H1 H2]. exists [], []. auto.
    + intros (s1 & s2 & E & H1 & H2). symmetry in E.
      destruct (app_eq_nil _ _ E) as [-> ->]. auto.
  - rewrite orb_true_iff, IHr1, IHr2, lang_alt_inv. tauto.
  - split; [constructor | reflexivity].
Qed.

Lemma lang_star_uncons (r : regex) (c : char) (s : text) :
  lang (Star r) (c :: s) ->
  exists s1 s2, s = s1 ++ s2 /\ lang r (c :: s1) /\ lang (Star r) s2.
Proof.
  intro H. remember (Star r) as r' eqn:Er. remember (c :: s) as w eqn:Ew.
  induction H; try discriminate.
  injection Er as ->.
  destruct s1 as [|c1 s1].
  - simpl in Ew. apply IHlang2; auto.
  - simpl in Ew. injection Ew as -> <-.
    exists s1, s2. auto.
Qed.

Lemma lang_seq_cons (r1 r2 : regex) (c : char) (s : text) :
  lang (Seq r1 r2) (c :: s) <->
  (exists s1 s2, s = s1 ++ s2 /\ lang r1 (c :: s1) /\ lang r2 s2)
  \/ (lang r1 [] /\ lang r2 (c :: s)).
Proof.
  rewrite lang_seq_inv. split.
  - intros (s1 & s2 & E & H1 & H2). destruct s1 as [|c1 s1].
    + simpl in E. subst s2. auto.
    + simpl in E. injection E as -> ->. left. eauto.
  - intros [(s1 & s2 & -> & H1 & H2) | [H1 H2]].
    + exists (c :: s1), s2. auto.
    + exists [], (c :: s). auto.
Qed.

Lemma deriv_lang (r : regex) (c : char) (s : text) :
  lang (deriv c r) s <-> lang r (c :: s).
Proof.
  revert s. induction r; intro s; simpl.
  - rewrite !lang_void_inv. tauto.
  - rewrite lang_void_inv, lang_eps_inv. split; [tauto | discriminate].
  - rewrite lang_class_inv. destruct (b c) eqn:Eb.
    + rewrite lang_eps_inv. split.
      * intros ->. eauto.
      * intros (c' & E & _). injection E as _ ->. reflexivity.
    + rewrite lang_void_inv. split; [tauto|].
      intros (c' & E & H). injection E as -> _. congruence.
  - rewrite lang_seq_cons. destruct (nullable r1) eqn:En.
    + rewrite lang_alt_inv, lang_seq_inv, IHr2. split.
      * intros [(s1 & s2 & -> & H1 & H2) | H].
        -- left. exists s1, s2. rewrite <- IHr1. auto.
        -- right. split; [apply nullable_lang|]; assumption.
      * intros [(s1 & s2 & -> & H1 & H2) | [_ H]].
        -- left. exists s1, s2. rewrite IHr1. auto.
        -- right. assumption.
    + rewrite lang_seq_inv. split.
      * intros (s1 & s2 & -> & H1 & H2).
        left. exists s1, s2. rewrite <- IHr1. auto.
      * intros [(s1 & s2 & -> & H1 & H2) | [H _]].
        -- exists s1, s2. rewrite IHr1. auto.
        -- apply nullable_lang in H. congruence.
  - rewrite !lang_alt_inv, IHr1, IHr2. tauto.
  - rewrite lang_seq_inv. split.
    + intros (s1 & s2 & -> & H1 & H2).
      change (c :: s1 ++ s2) with ((c :: s1) ++ s2).
      constructor; [apply IHr|]; assumption.
    + intro H. apply lang_star_uncons in H.
      destruct H as (s1 & s2 & -> & H1 & H2).
      exists s1, s2. rewrite IHr. auto.
Qed.

(** The matcher decides membership in the language of the expression. *)
Lemma fullmatch_lang (r : regex) (s : text) :
  fullmatch r s = true <-> lang r s.
Proof.
  revert r. induction s as [|c s IH]; intro r; simpl.
  - apply nullable_lang.
  - rewrite IH. apply deriv_lang.
Qed.

Lemma lang_star_class (p : char -> bool) (s : text) :
  lang (Star (Class p)) s <-> forallb p s = true.
Proof.
  split.
  - induction s as [|c s IH]; intro H; [reflexivity|].
    apply lang_star_uncons in H. destruct H as (s1 & s2 & -> & H1 & H2).
    apply lang_class_inv in H1. destruct H1 as (c' & E & Hc).
    injection E as -> ->. simpl. rewrite Hc. simpl. apply IH. assumption.
  - induction s as [|c s IH]; simpl; intro H.
    + constructor.
    + apply andb_true_iff in H. destruct H as [Hc Hs].
      change (c :: s) with ([c] ++ s).
      constructor; [constructor; assumption | apply IH; assumption].
Qed.

Lemma lang_plus_class (p : char -> bool) (s : text) :
  lang (Plus (Class p)) s <-> s <> [] /\ forallb p s = true.
Proof.
  unfold Plus. rewrite lang_seq_inv. split.
  - intros (s1 & s2 & -> & H1 & H2).
    apply lang_class_inv in H1. destruct H1 as (c & -> & Hc).
    apply lang_star_class in H2. simpl. rewrite Hc, H2.
    split; [discriminate | reflexivity].
  - intros [Hne H]. destruct s as [|c s]; [congruence|].
    simpl in H. apply andb_true_iff in H. destruct H as [Hc Hs].
    exists [c], s. repeat split.
    + apply lang_class_inv. eauto.
    + apply lang_star_class. assumption.
Qed.

End ReFacts.

Module StrFacts.
Import PyStr Shapes.

Lemma lstrip_skip (c : char) (l m : text) :
  isspace c = false -> lstrip (l ++ c :: m) = lstrip l ++ c :: m.
Proof.
  intro Hc. induction l as [|a l IH]; simpl.
  - rewrite Hc. reflexivity.
  - destruct (isspace a); [assumption | reflexivity].
Qed.

Lemma lstrip_head (s : text) :
  lstrip s = [] \/ exists c rest, lstrip s = c :: rest /\ isspace c = false.
Proof.
  induction s as [|a s IH]; simpl; [now left|].
  destruct (isspace a) eqn:Ea; [assumption|].
  right. eauto.
Qed.

Lemma rstrip_cons (c : char) (s : text) :
  isspace c = false -> rstrip (c :: s) = c :: rstrip s.
Proof.
  intro Hc. unfold rstrip. simpl.
  change (rev s ++ [c]) with (rev s ++ c :: []).
  rewrite lstrip_skip by assumption.
  rewrite rev_app_distr. reflexivity.
Qed.

Lemma rstrip_last (s : text) :
  rstrip s = []
  \/ exists c front, rstrip s = front ++ [c] /\ isspace c = false.
Proof.
  unfold rstrip. destruct (lstrip_head (rev s)) as [-> | (c & rest & -> & Hc)].
  - now left.
  - right. exists c, (rev rest). simpl. auto.
Qed.

(** A stripped text is empty or begins and ends outside white space. *)
Lemma strip_cases (s : text) : strip s = [] \/ solid (strip s).
Proof.
  unfold strip.
  destruct (lstrip_head s) as [-> | (c & rest & -> & Hc)]; [now left|].
  right. split.
  - rewrite rstrip_cons by assumption. eauto.
  - destruct (rstrip_last (c :: rest)) as [E | H]; [|assumption].
    rewrite rstrip_cons in E by assumption. discriminate.
Qed.

Lemma solid_strip (s : text) : solid s -> strip s = s.
Proof.
  intros [(c & rest & E1 & Hc) (c' & front & E2 & Hc')].
  unfold strip.
  assert (L : lstrip s = s) by (rewrite E1; simpl; now rewrite Hc).
  rewrite L. unfold rstrip. rewrite E2, rev_app_distr. simpl.
  rewrite Hc'. change (c' :: rev front) with (rev [c'] ++ rev front).
  rewrite <- rev_app_distr. apply rev_involutive.
Qed.

Lemma solid_nonempty (s : text) : solid s -> s <> [].
Proof. intros [(c & rest & -> & _) _]. discriminate. Qed.

Lemma strip_strip (s : text) : strip (strip s) = strip s.
Proof.
  destruct (strip_cases s) as [E | H].
  - rewrite E. reflexivity.
  - apply solid_strip. assumption.
Qed.

Lemma join_cons (sep x : text) (rest : list text) :
  rest <> [] -> join sep (x :: rest) = x ++ sep ++ join sep rest.
Proof. destruct rest; [congruence | reflexivity]. Qed.

Lemma join_app (sep : text) (a b : list text) :
  a <> [] -> b <> [] -> join sep (a ++ b) = join sep a ++ sep ++ join sep b.
Proof.
  intros Ha Hb. induction a as [|x a IH]; [congruence|].
  destruct a as [|y a].
  - simpl app. rewrite join_cons by assumption. reflexivity.
  - change ((x :: y :: a) ++ b) with (x :: (y :: a) ++ b).
    rewrite join_cons by discriminate.
    rewrite IH by discriminate.
    rewrite (join_cons sep x (rest := y :: a)) by discriminate.
    rewrite <- !app_assoc. reflexivity.
Qed.

Lemma concat_nonempty (A : Type) (G : list (list A)) :
  G <> [] -> Forall (fun g => g <> []) G -> List.concat G <> [].
Proof.
  destruct G as [|g G]; [congruence|].
  intros _ H. inversion H; subst. simpl.
  destruct g; [congruence | discriminate].
Qed.

(** Joining joined groups is joining their concatenation, as long as no
    group is empty. *)
Lemma join_concat (sep : text) (G : list (list text)) :
  Forall (fun g => g <> []) G ->
  join sep (map (join sep) G) = join sep (List.concat G).
Proof.
  induction G as [|g G IH]; intro H; [reflexivity|].
  inversion H as [|? ? Hg HG]; subst.
  destruct G as [|g' G].
  - simpl. rewrite app_nil_r. reflexivity.
  - change (map (join sep) (g :: g' :: G))
      with (join sep g :: map (join sep) (g' :: G)).
    rewrite join_cons by discriminate.
    rewrite IH by assumption.
    change (List.concat (g :: g' :: G)) with (g ++ List.concat (g' :: G)).
    rewrite join_app; [reflexivity | assumption |].
    apply concat_nonempty; [discriminate | assumption].
Qed.

Lemma join_head (sep : text) (g : list text) (c : char) (rest : text)
      (g' : list text) :
  g = (c :: rest) :: g' -> exists tail, join sep g = c :: tail.
Proof.
  intros ->. destruct g'; simpl; eauto.
Qed.

Lemma join_last (sep : text) (g : list text) :
  g <> [] ->
  (forall x, In x g -> exists c front, x = front ++ [c] /\ isspace c = false) ->
  exists c front, join sep g = front ++ [c] /\ isspace c = false.
Proof.
  induction g as [|x g IH]; intros Hne H; [congruence|].
  destruct g as [|y g].
  - simpl. apply H. now left.
  - rewrite join_cons by discriminate.
    destruct IH as (c & front & E & Hc); [discriminate | |].
    + intros z Hz. apply H. now right.
    + exists c, (x ++ sep ++ front). rewrite E, <- !app_assoc. auto.
Qed.

Lemma solid_join (sep : text) (g : list text) :
  g <> [] -> Forall solid g -> solid (join sep g).
Proof.
  intros Hne H. split.
  - destruct g as [|x g']; [congruence|].
    inversion H as [|? ? Hx _]; subst.
    destruct Hx as [(c & rest & E & Hc) _].
    destruct (join_head sep (g := x :: g') (g' := g') (f_equal (fun y => y :: g') E))
      as (tail & Et).
    rewrite Et. eauto.
  - apply join_last; [assumption|].
    intros x Hx. rewrite Forall_forall in H. apply (H x Hx).
Qed.

Lemma stripped_solid (line : text) :
  nonempty (strip line) = true -> solid (strip line).
Proof.
  intro H. destruct (strip_cases line) as [E | Hs]; [|assumption].
  rewrite E in H. discriminate.
Qed.

End StrFacts.

Module SegmenterSpec.
Import PyStr Re Segmenter Shapes ReFacts StrFacts.

Open Scope N_scope.

(** *** The loop body, case by case *)

Lemma step_blank (st : list text * list text) (line : text) :
  strip line = [] -> step st line = st.
Proof.
  intro E. destruct st as [blocks cur]. unfold step. rewrite E. reflexivity.
Qed.

Lemma step_heading (blocks cur : list text) (line : text) :
  nonempty (strip line) = true -> is_heading (strip line) = true ->
  step (blocks, cur) line =
  (match cur with [] => blocks | _ :: _ => blocks ++ [close_block cur] end,
   [strip line]).
Proof.
  intros Hn Hh. unfold step. rewrite Hn, Hh. simpl.
  destruct cur; reflexivity.
Qed.

Lemma step_plain (blocks cur : list text) (line : text) :
  nonempty (strip line) = true -> is_heading (strip line) = false ->
  step (blocks, cur) line = (blocks, cur ++ [strip line]).
Proof.
  intros Hn Hh. unfold step. rewrite Hn, Hh. reflexivity.
Qed.

Lemma fold_blank (lines : list text) (st : list text * list text) :
  (forall line, In line lines -> strip line = []) ->
  fold_left step lines st = st.
Proof.
  induction lines as [|line lines IH]; intro H; [reflexivity|].
  simpl. rewrite step_blank by (apply H; now left).
  apply IH. intros l Hl. apply H. now right.
Qed.

Lemma fold_plain (lines : list text) (blocks cur : list text) :
  (forall line, In line lines -> is_heading (strip line) = false) ->
  fold_left step lines (blocks, cur) =
  (blocks, cur ++ filter nonempty (map strip lines)).
Proof.
  revert cur. induction lines as [|line lines IH]; intros cur H.
  - simpl. rewrite app_nil_r. reflexivity.
  - cbn [fold_left map filter]. destruct (nonempty (strip line)) eqn:Hn.
    + rewrite step_plain; [| assumption | apply H; now left].
      rewrite IH by (intros l Hl; apply H; now right).
      rewrite <- app_assoc. reflexivity.
    + rewrite step_blank.
      * apply IH. intros l Hl. apply H. now right.
      * destruct (strip line); [reflexivity | discriminate].
Qed.

(** *** Lines of a text made of white space *)

Ltac bool_to_prop :=
  rewrite ?orb_true_iff, ?andb_true_iff, ?N.leb_le, ?N.eqb_eq in *.

Lemma linebreak_isspace (c : char) : is_linebreak c = true -> isspace c = true.
Proof.
  unfold is_linebreak, isspace, between. intro H. bool_to_prop. lia.
Qed.

Lemma lstrip_spaces (s : text) : forallb isspace s = true -> lstrip s = [].
Proof.
  induction s as [|c s IH]; simpl; intro H; [reflexivity|].
  apply andb_true_iff in H. destruct H as [Hc Hs]. rewrite Hc. auto.
Qed.

Lemma strip_spaces (s : text) : forallb isspace s = true -> strip s = [].
Proof. intro H. unfold strip. rewrite lstrip_spaces by assumption. reflexivity. Qed.

Lemma splitlines_from_spaces (s cur : text) (after_cr : bool) :
  forallb isspace cur = true -> forallb isspace s = true ->
  forall line, In line (splitlines_from after_cr cur s) ->
               forallb isspace line = true.
Proof.
  revert cur after_cr. induction s as [|c s IH]; intros cur after_cr Hcur Hs line.
  - simpl. destruct cur; simpl; [tauto|]. intros [<- | []]. assumption.
  - simpl in Hs. apply andb_true_iff in Hs. destruct Hs as [Hc Hs].
    simpl. destruct (after_cr && (c =? LF)).
    + apply IH; assumption.
    + destruct (is_linebreak c).
      * intros [<- | Hin]; [assumption|].
        apply (IH [] (c =? CR)); auto.
      * apply IH; [|assumption].
        rewrite forallb_app, Hcur. simpl. rewrite Hc. reflexivity.
Qed.

(** A text made of white space only has blank lines only. *)
Lemma whitespace_lines_blank (t : text) :
  forallb isspace t = true ->
  forall line, In line (splitlines t) -> strip line = [].
Proof.
  intros H line Hin. apply strip_spaces.
  apply (splitlines_from_spaces t [] false eq_refl H line Hin).
Qed.

(** *** C7 *)

(** C7. Empty-output case: for an input that is empty or whose lines are
    all blank (empty after stripping white space), [break_into_blocks]
    returns no block. *)
Theorem C7_blank_input_no_blocks (t : text) :
  t = [] \/ (forall line, In line (splitlines t) -> strip line = []) ->
  break_into_blocks t = [].
Proof.
  intro H. unfold break_into_blocks.
  rewrite fold_blank; [reflexivity|].
  destruct H as [-> | H]; [intros line [] | assumption].
Qed.

Lemma C7_blank_input_witness :
  break_into_blocks [SP; 9; LF; CR; LF; 160] = [].
Proof.
  apply C7_blank_input_no_blocks. right.
  apply whitespace_lines_blank. reflexivity.
Defined.

(** *** The loop keeps every line, in order *)

Lemma grouped_step (G : list (list text)) (st : list text * list text)
      (line : text) :
  grouped G st ->
  exists G',
    grouped G' (step st line)
    /\ held G' (step st line) =
       held G st ++ filter nonempty [strip line].
Proof.
  destruct st as [blocks cur]. intro H.
  destruct (nonempty (strip line)) eqn:Hn.
  - pose proof (stripped_solid line Hn) as Hsolid.
    cbn [filter]. rewrite Hn.
    destruct (is_heading (strip line)) eqn:Hh.
    + rewrite step_heading by assumption.
      destruct H as (Hb & Hg & Hs). cbn [fst snd] in Hb, Hs.
      destruct cur as [|x cur].
      * exists G. unfold grouped, held. cbn [fst snd].
        rewrite app_nil_r in *.
        repeat split; try assumption.
        apply Forall_app. split; [assumption | now constructor].
      * exists (G ++ [x :: cur]). unfold grouped, held. cbn [fst snd].
        rewrite map_app, concat_app. cbn [map List.concat].
        rewrite app_nil_r.
        split; [split; [|split] |].
        -- rewrite Hb. f_equal. f_equal. unfold close_block.
           apply Forall_app in Hs. destruct Hs as [_ Hsc].
           apply solid_strip, solid_join; [discriminate | assumption].
        -- apply Forall_app. split; [assumption|].
           constructor; [discriminate | constructor].
        -- apply Forall_app. split; [assumption | now constructor].
        -- rewrite <- !app_assoc. reflexivity.
    + rewrite step_plain by assumption.
      destruct H as (Hb & Hg & Hs). cbn [fst snd] in Hb, Hs.
      exists G. unfold grouped, held. cbn [fst snd].
      repeat split; try assumption.
      * rewrite app_assoc. apply Forall_app. split; [assumption | now constructor].
      * rewrite app_assoc. reflexivity.
  - assert (E : strip line = [])
      by (destruct (strip line); [reflexivity | discriminate]).
    rewrite step_blank by assumption. rewrite E. cbn [filter nonempty].
    exists G. rewrite app_nil_r. auto.
Qed.

Lemma grouped_fold (lines : list text) (G : list (list text))
      (st : list text * list text) :
  grouped G st ->
  exists G',
    grouped G' (fold_left step lines st)
    /\ held G' (fold_left step lines st) =
       held G st ++ filter nonempty (map strip lines).
Proof.
  revert G st. induction lines as [|line lines IH]; intros G st H.
  - exists G. simpl. rewrite app_nil_r. auto.
  - destruct (grouped_step line H) as (G1 & H1 & E1).
    destruct (IH G1 _ H1) as (G2 & H2 & E2).
    exists G2. cbn [fold_left]. split; [assumption|].
    rewrite E2, E1, <- app_assoc. f_equal.
    cbn [map filter]. destruct (nonempty (strip line)); reflexivity.
Qed.

(** *** C10 *)

(** The blocks are the stripped non-blank lines cut into consecutive,
    non-empty groups, each group joined with single spaces. *)
Lemma blocks_are_groups (t : text) :
  exists G,
    break_into_blocks t = map (join [SP]) G
    /\ Forall (fun g => g <> []) G
    /\ List.concat G = stripped_lines t.
Proof.
  unfold break_into_blocks, stripped_lines.
  assert (H0 : grouped [] ([], [])).
  { unfold grouped. simpl. auto. }
  destruct (grouped_fold (splitlines t) H0) as (G & HG & E).
  destruct (fold_left step (splitlines t) ([], [])) as [blocks cur].
  unfold held in E. simpl in E. rewrite <- E.
  destruct HG as (Hb & Hg & Hs). simpl in Hb, Hs. subst blocks.
  destruct cur as [|x cur].
  - exists G. rewrite app_nil_r. auto.
  - exists (G ++ [x :: cur]). apply Forall_app in Hs. destruct Hs as [_ Hc].
    split; [|split].
    + rewrite map_app. f_equal. cbn [map]. f_equal. unfold close_block.
      apply solid_strip, solid_join; [discriminate | assumption].
    + apply Forall_app. split; [assumption|].
      constructor; [discriminate | constructor].
    + rewrite concat_app. cbn [List.concat]. rewrite app_nil_r. reflexivity.
Qed.

(** C10. Segmentation conserves text: for every input, the blocks of
    [break_into_blocks] joined in order with single spaces are the
    non-blank, stripped lines of the input joined with single spaces; the
    blocks are those lines cut into consecutive non-empty groups, so no
    line is dropped, duplicated or reordered. *)
Theorem C10_blocks_conserve_lines (t : text) :
  join [SP] (break_into_blocks t) = join [SP] (stripped_lines t)
  /\ exists G,
      break_into_blocks t = map (join [SP]) G
      /\ Forall (fun g => g <> []) G
      /\ List.concat G = stripped_lines t.
Proof.
  destruct (blocks_are_groups t) as (G & Hb & Hg & Hc).
  split; [|eauto].
  rewrite Hb, <- Hc. apply join_concat. assumption.
Qed.

(** *** C5 *)

(** C5, amended. Single-block case: for an input with at least one
    non-blank line and no heading line, [break_into_blocks] returns exactly
    one block, and its text is the non-blank lines, each stripped of the
    white space around it, joined with single spaces; trimming that text
    changes nothing. *)
Theorem C5_single_block_of_stripped_lines (t : text) :
  (exists line, In line (splitlines t) /\ strip line <> []) ->
  (forall line, In line (splitlines t) -> is_heading (strip line) = false) ->
  break_into_blocks t = [join [SP] (stripped_lines t)]
  /\ strip (join [SP] (stripped_lines t)) = join [SP] (stripped_lines t).
Proof.
  intros (line & Hin & Hne) Hplain.
  assert (Hs : Forall solid (stripped_lines t)).
  { apply Forall_forall. intros x Hx. unfold stripped_lines in Hx.
    apply filter_In in Hx. destruct Hx as [Hx Hn].
    apply in_map_iff in Hx. destruct Hx as (l & <- & _).
    apply stripped_solid. assumption. }
  assert (Hl : stripped_lines t <> []).
  { assert (In (strip line) (stripped_lines t)) as Hi.
    { apply filter_In. split; [apply in_map; assumption|].
      destruct (strip line); [congruence | reflexivity]. }
    intro E. rewrite E in Hi. destruct Hi. }
  assert (Hj : strip (join [SP] (stripped_lines t)) = join [SP] (stripped_lines t))
    by (apply solid_strip, solid_join; assumption).
  split; [|assumption].
  unfold break_into_blocks. rewrite fold_plain by assumption.
  simpl app. fold (stripped_lines t).
  destruct (stripped_lines t) as [|x l] eqn:E; [congruence|].
  unfold close_block. rewrite Hj. reflexivity.
Qed.

Lemma C5_single_block_witness :
  break_into_blocks (u "  first line " ++ [LF; LF] ++ u "second")
  = [u "first line second"].
Proof.
  apply (C5_single_block_of_stripped_lines
           (u "  first line " ++ [LF; LF] ++ u "second")).
  - exists (u "  first line "). split; [now left | discriminate].
  - intros line H. vm_compute in H.
    destruct H as [<- | [<- | [<- | []]]]; reflexivity.
Defined.

(** The claim as worded takes the lines as they stand: a line with white
    space around it is stripped by the code before it is joined. *)
Lemma C5_raw_lines_counterexample :
  let t := u "a " ++ [LF] ++ u " b" in
  (exists line, In line (splitlines t) /\ strip line <> [])
  /\ (forall line, In line (splitlines t) -> is_heading (strip line) = false)
  /\ break_into_blocks t = [u "a b"]
  /\ spec_single_block t = u "a   b"
  /\ break_into_blocks t <> [spec_single_block t].
Proof.
  cbv zeta. repeat split.
  - exists (u "a "). split; [now left | discriminate].
  - intros line H. vm_compute in H.
    destruct H as [<- | [<- | []]]; reflexivity.
  - discriminate.
Qed.

(** *** Lines hold no line boundary *)

Lemma splitlines_from_no_linebreak (s cur : text) (after_cr : bool) :
  forallb (fun c => negb (is_linebreak c)) cur = true ->
  forall line, In line (splitlines_from after_cr cur s) ->
               forallb (fun c => negb (is_linebreak c)) line = true.
Proof.
  revert cur after_cr. induction s as [|c s IH]; intros cur after_cr Hcur line.
  - simpl. destruct cur; simpl; [tauto|]. intros [<- | []]. assumption.
  - simpl. destruct (after_cr && (c =? LF)).
    + apply IH; assumption.
    + destruct (is_linebreak c) eqn:Ec.
      * intros [<- | Hin]; [assumption|].
        apply (IH [] (c =? CR)); auto.
      * apply IH. rewrite forallb_app, Hcur. simpl. rewrite Ec. reflexivity.
Qed.

Lemma lstrip_forallb (p : char -> bool) (s : text) :
  forallb p s = true -> forallb p (lstrip s) = true.
Proof.
  induction s as [|c s IH]; simpl; intro H; [reflexivity|].
  destruct (isspace c); [|assumption].
  apply andb_true_iff in H. apply IH, H.
Qed.

Lemma forallb_rev (p : char -> bool) (s : text) :
  forallb p s = true -> forallb p (rev s) = true.
Proof.
  rewrite !forallb_forall. intros H x Hx. apply H, in_rev, Hx.
Qed.

Lemma strip_forallb (p : char -> bool) (s : text) :
  forallb p s = true -> forallb p (strip s) = true.
Proof.
  intro H. unfold strip, rstrip.
  apply forallb_rev, lstrip_forallb, forallb_rev, lstrip_forallb, H.
Qed.

(** A stripped line of the input holds no line feed, so the last part of
    the numbered alternative accepts whatever follows the white space. *)
Lemma stripped_line_no_line_feed (t line : text) :
  In line (splitlines t) -> forallb not_newline (strip line) = true.
Proof.
  intro Hin. apply strip_forallb.
  pose proof (@splitlines_from_no_linebreak t [] false eq_refl line Hin) as H.
  rewrite forallb_forall in *. intros c Hc. specialize (H c Hc).
  unfold not_newline. destruct (N.eqb_spec c LF) as [-> | _];
    [discriminate H | reflexivity].
Qed.

(** *** C2 *)

Lemma capital_alternative (s : text) :
  lang (Seq (Class is_upper) (Plus (Class is_alpha_or_space))) s
  <-> capital_heading s.
Proof.
  unfold capital_heading. rewrite lang_seq_inv. split.
  - intros (s1 & s2 & -> & H1 & H2).
    apply lang_class_inv in H1. destruct H1 as (c & -> & Hc).
    apply lang_plus_class in H2. destruct H2 as [Hne Hall].
    exists c, s2. auto.
  - intros (c & rest & -> & Hc & Hne & Hall).
    exists [c], rest. repeat split.
    + apply lang_class_inv. eauto.
    + apply lang_plus_class. auto.
Qed.

Lemma numbered_alternative (s : text) :
  lang (Seq (Plus (Class is_digit))
            (Seq (Class is_dot)
                 (Seq (Class isspace) (Star (Class not_newline))))) s
  <-> numbered_word s.
Proof.
  unfold numbered_word. rewrite lang_seq_inv. split.
  - intros (ds & s2 & -> & H1 & H2).
    apply lang_plus_class in H1. destruct H1 as [Hne Hds].
    apply lang_seq_inv in H2. destruct H2 as (s3 & s4 & -> & H3 & H4).
    apply lang_class_inv in H3. destruct H3 as (d & -> & Hd).
    apply N.eqb_eq in Hd. subst d.
    apply lang_seq_inv in H4. destruct H4 as (s5 & s6 & -> & H5 & H6).
    apply lang_class_inv in H5. destruct H5 as (w & -> & Hw).
    apply lang_star_class in H6.
    exists ds, w, s6. auto.
  - intros (ds & w & rest & -> & Hne & Hds & Hw & Hrest).
    exists ds, (DOT :: w :: rest). repeat split.
    + apply lang_plus_class. auto.
    + apply lang_seq_inv. exists [DOT], (w :: rest). repeat split.
      * apply lang_class_inv. exists DOT. auto.
      * apply lang_seq_inv. exists [w], rest. repeat split.
        -- apply lang_class_inv. eauto.
        -- apply lang_star_class. assumption.
Qed.

(** The words of the heading pattern. *)
Lemma heading_pattern_lang (s : text) :
  fullmatch heading_pattern s = true
  <-> capital_heading s \/ numbered_word s.
Proof.
  rewrite fullmatch_lang. unfold heading_pattern.
  rewrite lang_alt_inv, capital_alternative, numbered_alternative.
  tauto.
Qed.

(** A stripped line does not end with a line feed, so [$] can only hold at
    its end. *)
Lemma chop_newline_stripped (line : text) : chop_newline (strip line) = None.
Proof.
  unfold chop_newline.
  destruct (strip_cases line) as [-> | [_ (c & front & -> & Hc)]].
  - reflexivity.
  - rewrite rev_app_distr. simpl. destruct (N.eqb_spec c LF) as [-> | _].
    + discriminate.
    + reflexivity.
Qed.

Lemma is_heading_stripped (line : text) :
  is_heading (strip line) = true
  <-> capital_heading (strip line) \/ numbered_word (strip line).
Proof.
  unfold is_heading, match_anchored.
  rewrite chop_newline_stripped, orb_false_r.
  apply heading_pattern_lang.
Qed.

Lemma numbered_word_heading (s : text) :
  forallb not_newline s = true -> numbered_word s <-> numbered_heading s.
Proof.
  intro H. split.
  - intros (ds & w & rest & E & Hne & Hds & Hw & _). exists ds, w, rest. auto.
  - intros (ds & w & rest & E & Hne & Hds & Hw). exists ds, w, rest.
    repeat split; try assumption.
    rewrite E, forallb_app in H. apply andb_true_iff in H.
    destruct H as [_ H]. cbn [forallb] in H.
    apply andb_true_iff in H. destruct H as [_ H].
    apply andb_true_iff in H. apply H.
Qed.

Lemma is_heading_line (t line : text) :
  In line (splitlines t) ->
  is_heading (strip line) = true
  <-> capital_heading (strip line) \/ numbered_heading (strip line).
Proof.
  intro Hin. rewrite is_heading_stripped.
  rewrite (@numbered_word_heading _ (@stripped_line_no_line_feed _ _ Hin)).
  tauto.
Qed.

(** C2, amended. Heading predicate: a non-blank line of the input, once
    stripped, is a heading exactly when it is (a) an ASCII capital letter
    followed by one or more ASCII letters or white-space characters, or (b)
    one or more ASCII digits, a period, a white-space character and then any
    characters.  While a block is being accumulated, a line closes it and
    starts a new block exactly in that case; when no block is being
    accumulated, any non-blank line starts one. *)
Theorem C2_heading_line_starts_block (t : text) (blocks cur : list text)
        (line : text) :
  In line (splitlines t) -> nonempty (strip line) = true -> cur <> [] ->
  (is_heading (strip line) = true
   <-> capital_heading (strip line) \/ numbered_heading (strip line))
  /\ (step (blocks, cur) line = (blocks ++ [close_block cur], [strip line])
      <-> capital_heading (strip line) \/ numbered_heading (strip line))
  /\ step (blocks, []) line = (blocks, [strip line]).
Proof.
  intros Hin Hn Hcur. split; [apply (@is_heading_line _ _ Hin)|]. split.
  - rewrite <- (@is_heading_line _ _ Hin).
    destruct (is_heading (strip line)) eqn:Hh.
    + rewrite step_heading by assumption.
      destruct cur; [congruence | tauto].
    + rewrite step_plain by assumption. split; [|discriminate].
      intro E. injection E as E _.
      apply (f_equal (@List.length text)) in E.
      rewrite length_app in E. simpl in E. lia.
  - destruct (is_heading (strip line)) eqn:Hh.
    + rewrite step_heading by assumption. reflexivity.
    + rewrite step_plain by assumption. reflexivity.
Qed.

Lemma C2_heading_line_witness :
  step ([], [u "intro"]) (u " 2. Purpose ") = ([u "intro"], [u "2. Purpose"])
  <-> capital_heading (u "2. Purpose") \/ numbered_heading (u "2. Purpose").
Proof.
  apply (@C2_heading_line_starts_block
           (u "intro" ++ [LF] ++ u " 2. Purpose ") [] [u "intro"]
           (u " 2. Purpose ")).
  - right. left. reflexivity.
  - reflexivity.
  - discriminate.
Defined.

(** The claim as worded fails in both directions: a line with a
    lowercase-only word is a heading for the code, and a line made of one
    capital letter is not. *)
Lemma C2_spec_heading_counterexample :
  (is_heading (u "Hello world") = true
   /\ spec_heading (u "Hello world") = false
   /\ break_into_blocks (u "intro" ++ [LF] ++ u "Hello world")
      = [u "intro"; u "Hello world"])
  /\ (is_heading (u "A") = false
      /\ spec_heading (u "A") = true
      /\ break_into_blocks (u "intro" ++ [LF] ++ u "A") = [u "intro A"]).
Proof. repeat split. Qed.

End SegmenterSpec.

(** * Properties of the aggregator *)

Module AggregatorFacts.
Import Py Aggregator Reports.

Open Scope string_scope.

(** *** Dictionaries *)

Lemma dict_get_set_same (V : Type) (d : list (string * V)) (k : string) (v : V) :
  dict_get (dict_set d k v) k = Some v.
Proof.
  induction d as [|[k' v'] d IH]; simpl.
  - rewrite String.eqb_refl. reflexivity.
  - destruct (String.eqb k' k) eqn:E; simpl.
    + rewrite String.eqb_refl. reflexivity.
    + rewrite E. assumption.
Qed.

Lemma dict_get_set_other (V : Type) (d : list (string * V)) (k k0 : string)
      (v : V) :
  k <> k0 -> dict_get (dict_set d k v) k0 = dict_get d k0.
Proof.
  intro Hne. induction d as [|[k' v'] d IH]; simpl.
  - destruct (String.eqb_spec k k0); [congruence | reflexivity].
  - destruct (String.eqb_spec k' k) as [-> | Hk]; simpl.
    + destruct (String.eqb_spec k k0); [congruence | reflexivity].
    + destruct (String.eqb k' k0); [reflexivity | assumption].
Qed.

Lemma dict_get_in_keys (V : Type) (d : list (string * V)) (k : string) :
  existsb (String.eqb k) (keys d) = true <-> dict_get d k <> None.
Proof.
  induction d as [|[k' v'] d IH]; simpl.
  - split; [discriminate | congruence].
  - rewrite (String.eqb_sym k k').
    destruct (String.eqb k' k); simpl; [|assumption].
    split; [discriminate | reflexivity].
Qed.

Lemma existsb_eqb_in (k : string) (l : list string) :
  existsb (String.eqb k) l = true <-> In k l.
Proof.
  rewrite existsb_exists. split.
  - intros (x & Hx & E). apply String.eqb_eq in E. subst. assumption.
  - intro H. exists k. split; [assumption | apply String.eqb_refl].
Qed.

(** *** The keys after the first loop *)

Lemma add_key_in (ks : list string) (k x : string) :
  In x (add_key ks k) <-> In x ks \/ x = k.
Proof.
  induction ks as [|k' ks IH]; simpl.
  - intuition.
  - destruct (String.eqb_spec k' k) as [-> | Hne]; simpl.
    + intuition.
    + rewrite IH. intuition.
Qed.

Lemma add_key_nodup (ks : list string) (k : string) :
  NoDup ks -> NoDup (add_key ks k).
Proof.
  induction ks as [|k' ks IH]; simpl; intro H.
  - constructor; [intros [] | constructor].
  - destruct (String.eqb_spec k' k) as [-> | Hne]; [assumption|].
    inversion H as [|? ? Hnin Hnd]; subst. constructor.
    + rewrite add_key_in. intros [Hin | E]; [contradiction | congruence].
    + apply IH. assumption.
Qed.

Lemma add_key_fresh (ks : list string) (k : string) :
  ~ In k ks -> add_key ks k = (ks ++ [k])%list.
Proof.
  induction ks as [|k' ks IH]; simpl; intro H; [reflexivity|].
  destruct (String.eqb_spec k' k) as [-> | Hne].
  - exfalso. apply H. now left.
  - rewrite IH; [reflexivity|]. intro Hin. apply H. now right.
Qed.

Lemma fold_add_key_nodup (l ks : list string) :
  NoDup ks -> NoDup (fold_left add_key l ks).
Proof.
  revert ks. induction l as [|k l IH]; simpl; intros ks H; [assumption|].
  apply IH, add_key_nodup, H.
Qed.

Lemma fold_add_key_in (l ks : list string) (x : string) :
  In x (fold_left add_key l ks) <-> In x ks \/ In x l.
Proof.
  revert ks. induction l as [|k l IH]; simpl; intro ks.
  - intuition.
  - rewrite IH, add_key_in. intuition.
Qed.

Lemma fold_add_key_fresh (l ks : list string) :
  NoDup (ks ++ l) -> fold_left add_key l ks = (ks ++ l)%list.
Proof.
  revert ks. induction l as [|k l IH]; simpl; intros ks H.
  - rewrite app_nil_r. reflexivity.
  - rewrite add_key_fresh.
    + rewrite IH; rewrite <- app_assoc; [reflexivity | assumption].
    + apply NoDup_remove_2 in H. intro Hin. apply H.
      apply in_or_app. now left.
Qed.

Lemma distinct_ids_nodup (cl : list checklist_item) : NoDup (distinct_ids cl).
Proof. apply fold_add_key_nodup. constructor. Qed.

Lemma distinct_ids_in (cl : list checklist_item) (k : string) :
  In k (distinct_ids cl) <-> In k (map id cl).
Proof. unfold distinct_ids. rewrite fold_add_key_in. simpl. tauto. Qed.

Lemma distinct_ids_nodup_ids (cl : list checklist_item) :
  NoDup (map id cl) -> distinct_ids cl = map id cl.
Proof. intro H. apply (fold_add_key_fresh (map id cl) [] H). Qed.

Lemma dict_set_blank (ks : list string) (k : string) :
  dict_set (map blank ks) k (snd (blank k)) = map blank (add_key ks k).
Proof.
  induction ks as [|k' ks IH]; [reflexivity|].
  cbn [map add_key]. unfold blank at 1. cbn [dict_set].
  destruct (String.eqb_spec k' k) as [-> | Hne].
  - reflexivity.
  - cbn [map]. rewrite IH. reflexivity.
Qed.

(** The first loop leaves one blank entry per distinct id. *)
Lemma init_summary_spec (cl : list checklist_item) :
  init_summary cl = map blank (distinct_ids cl).
Proof.
  unfold init_summary, distinct_ids.
  change (@nil (string * item_summary)) with (map blank []).
  generalize (@nil string) as ks.
  induction cl as [|item cl IH]; intro ks; simpl; [reflexivity|].
  rewrite <- IH. f_equal. apply dict_set_blank.
Qed.

(** *** Extending the entries of a summary dictionary *)

Lemma extend_nil (info : item_summary) : extend info [] = info.
Proof. destruct info. unfold extend. simpl. rewrite app_nil_r. reflexivity. Qed.

Lemma extend_extend (info : item_summary) (a b : list matched_block) :
  extend (extend info a) b = extend info (a ++ b).
Proof. unfold extend. simpl. rewrite app_assoc. reflexivity. Qed.

Lemma keys_extend_all (f : string -> list matched_block) (s : summary_dict) :
  keys (extend_all f s) = keys s.
Proof. unfold keys, extend_all. rewrite map_map. reflexivity. Qed.

Lemma extend_all_ext (f g : string -> list matched_block) (s : summary_dict) :
  (forall k, In k (keys s) -> f k = g k) -> extend_all f s = extend_all g s.
Proof.
  intro H. unfold extend_all. apply map_ext_in. intros [k info] Hin.
  simpl. rewrite H; [reflexivity|].
  unfold keys. change k with (fst (k, info)). apply in_map. assumption.
Qed.

Lemma extend_all_nil (s : summary_dict) : extend_all (fun _ => []) s = s.
Proof.
  unfold extend_all. rewrite <- (map_id s) at 2. apply map_ext.
  intros [k info]. simpl. rewrite extend_nil. reflexivity.
Qed.

Lemma extend_all_compose (f g : string -> list matched_block)
      (s : summary_dict) :
  extend_all g (extend_all f s) = extend_all (fun k => (f k ++ g k)%list) s.
Proof.
  unfold extend_all. rewrite map_map. apply map_ext.
  intros [k info]. simpl. rewrite extend_extend. reflexivity.
Qed.

(** *** One record *)

Lemma getitem_dict (obj v : value) (key : string) :
  getitem obj key = Ok v -> exists d, obj = VDict d /\ dict_get d key = Some v.
Proof.
  destruct obj; simpl; try discriminate.
  destruct (dict_get l key) eqn:E; [|discriminate].
  intro H. injection H as ->. eauto.
Qed.

Lemma get_of_dict (obj v default : value) (key : string) :
  getitem obj key = Ok v -> exists j, get obj "Justification" default = Ok j.
Proof.
  intro H. apply getitem_dict in H. destruct H as (d & -> & _).
  simpl. destruct (dict_get d "Justification"); eauto.
Qed.

Lemma dict_set_present (s : summary_dict) (k : string) (info : item_summary)
      (m : matched_block) :
  NoDup (keys s) -> dict_get s k = Some info ->
  dict_set s k (append_match info m)
  = extend_all (fun key => if String.eqb k key then [m] else []) s.
Proof.
  induction s as [|[k' info'] s IH]; simpl; intros Hnd Hget; [discriminate|].
  inversion Hnd as [|? ? Hnin Hnd']; subst.
  destruct (String.eqb_spec k' k) as [-> | Hne].
  - injection Hget as ->. rewrite String.eqb_refl. f_equal.
    rewrite <- (extend_all_nil s) at 1. apply extend_all_ext.
    intros key Hkey. destruct (String.eqb_spec k key) as [-> | _];
      [contradiction | reflexivity].
  - destruct (String.eqb_spec k k') as [-> | _]; [congruence|].
    rewrite extend_nil. f_equal. apply IH; assumption.
Qed.

Lemma merge_item_spec (block_id : value) (s s' : summary_dict) (item : value) :
  NoDup (keys s) -> merge_item block_id s item = Ok s' ->
  s' = extend_all (fun k => item_match k block_id item) s.
Proof.
  intros Hnd. unfold merge_item, bind.
  destruct (getitem item "Checklist Item ID") as [i|] eqn:Ei; [|discriminate].
  destruct (getitem item "Status") as [st|] eqn:Est; [|discriminate].
  destruct (eq_str st "Missing") eqn:Em; simpl.
  - intro H. injection H as <-.
    rewrite <- (extend_all_nil s) at 1. apply extend_all_ext.
    intros k _. unfold item_match. rewrite Ei, Est, Em.
    destruct i; try reflexivity. rewrite andb_false_r. reflexivity.
  - destruct (get item "Justification" (VStr "")) as [j|] eqn:Ej;
      [|discriminate].
    unfold record_match. destruct i as [| | |k0| |]; try discriminate.
    destruct (dict_get s k0) as [info|] eqn:Eg; [|discriminate].
    intro H. injection H as <-.
    rewrite (@dict_set_present s k0 info _ Hnd Eg). apply extend_all_ext.
    intros k _. unfold item_match. rewrite Ei, Est, Em, Ej.
    rewrite andb_true_r. reflexivity.
Qed.

Lemma merge_item_ok (block_id : value) (s : summary_dict) (item : value) :
  is_ok (merge_item block_id s item) = item_ok (keys s) item.
Proof.
  unfold merge_item, item_ok, bind.
  destruct (getitem item "Checklist Item ID") as [i|] eqn:Ei; [|reflexivity].
  destruct (getitem item "Status") as [st|] eqn:Est; [|reflexivity].
  destruct (eq_str st "Missing") eqn:Em; simpl; [reflexivity|].
  destruct (@get_of_dict item i (VStr "") _ Ei) as (j & ->).
  unfold record_match. destruct i as [| | |k0| |]; try reflexivity.
  destruct (dict_get s k0) as [info|] eqn:Eg; simpl.
  - symmetry. apply dict_get_in_keys. congruence.
  - symmetry. apply not_true_is_false. rewrite dict_get_in_keys. congruence.
Qed.

(** *** Loops over a summary dictionary *)

Lemma foldM_app (A B : Type) (f : A -> B -> result A) (l1 l2 : list B) (a : A) :
  foldM f (l1 ++ l2) a = bind (foldM f l1 a) (foldM f l2).
Proof.
  revert a. induction l1 as [|x l1 IH]; intro a; simpl; [reflexivity|].
  destruct (f a x); simpl; [apply IH | reflexivity].
Qed.

Section MergeLoop.

Variable B : Type.
Variable body : summary_dict -> B -> result summary_dict.
Variable added : string -> B -> list matched_block.
Variable accepts : list string -> B -> bool.

Hypothesis body_spec :
  forall s s' x, NoDup (keys s) -> body s x = Ok s' ->
                 s' = extend_all (fun k => added k x) s.
Hypothesis body_ok :
  forall s x, NoDup (keys s) -> is_ok (body s x) = accepts (keys s) x.

Lemma loop_spec (l : list B) (s s' : summary_dict) :
  NoDup (keys s) -> foldM body l s = Ok s' ->
  s' = extend_all (fun k => flat_map (added k) l) s.
Proof.
  revert s. induction l as [|x l IH]; simpl; intros s Hnd H.
  - injection H as <-. symmetry. apply extend_all_nil.
  - unfold bind in H. destruct (body s x) as [s1|] eqn:E; [|discriminate].
    apply body_spec in E; [|assumption]. subst s1.
    apply IH in H; [|rewrite keys_extend_all; assumption].
    rewrite H. apply extend_all_compose.
Qed.

Lemma loop_ok (l : list B) (s : summary_dict) :
  NoDup (keys s) -> is_ok (foldM body l s) = forallb (accepts (keys s)) l.
Proof.
  revert s. induction l as [|x l IH]; simpl; intros s Hnd; [reflexivity|].
  rewrite <- body_ok by assumption. unfold bind.
  destruct (body s x) as [s1|] eqn:E; simpl; [|reflexivity].
  apply body_spec in E; [|assumption]. subst s1.
  rewrite IH by (rewrite keys_extend_all; assumption).
  rewrite keys_extend_all. reflexivity.
Qed.

End MergeLoop.

Lemma merge_block_spec (s s' : summary_dict) (block : value) :
  NoDup (keys s) -> merge_block s block = Ok s' ->
  s' = extend_all (fun k => block_matches k block) s.
Proof.
  intro Hnd. unfold merge_block, block_matches, entries_of, bind.
  destruct (getitem block "block_id") as [bid|]; [|discriminate].
  destruct (getitem block "Checklist Evaluation") as [ev|]; [|discriminate].
  destruct (iter ev) as [items|]; [|discriminate].
  apply (loop_spec (merge_item bid) (fun k => item_match k bid)).
  - intros. eapply merge_item_spec; eassumption.
  - assumption.
Qed.

Lemma merge_block_ok (s : summary_dict) (block : value) :
  NoDup (keys s) -> is_ok (merge_block s block) = block_ok (keys s) block.
Proof.
  intro Hnd. unfold merge_block, block_ok, bind.
  destruct (getitem block "block_id") as [bid|]; [|reflexivity].
  destruct (getitem block "Checklist Evaluation") as [ev|]; [|reflexivity].
  destruct (iter ev) as [items|]; [|reflexivity].
  apply (loop_ok (merge_item bid) (fun k => item_match k bid) (item_ok)).
  - intros. eapply merge_item_spec; eassumption.
  - intros. apply merge_item_ok.
  - assumption.
Qed.

Lemma forallb_pointwise (A : Type) (f g : A -> bool) (l : list A) :
  (forall x, f x = g x) -> forallb f l = forallb g l.
Proof.
  intro H. induction l as [|x l IH]; simpl; [reflexivity|].
  rewrite H, IH. reflexivity.
Qed.

Lemma merge_blocks_spec (rs : list value) (s s' : summary_dict) :
  NoDup (keys s) -> foldM merge_block rs s = Ok s' ->
  s' = extend_all (fun k => matches k rs) s.
Proof.
  apply (loop_spec merge_block block_matches).
  intros. apply merge_block_spec; assumption.
Qed.

Lemma keys_blank (ks : list string) : keys (map blank ks) = ks.
Proof. unfold keys. rewrite map_map. simpl. apply map_id. Qed.

Lemma keys_init_summary (cl : list checklist_item) :
  keys (init_summary cl) = distinct_ids cl.
Proof. rewrite init_summary_spec. apply keys_blank. Qed.

Lemma init_summary_nodup (cl : list checklist_item) :
  NoDup (keys (init_summary cl)).
Proof. rewrite keys_init_summary. apply distinct_ids_nodup. Qed.

(** What [compile_summary] returns when it returns: in the order of the
    first occurrences of the ids, each id with its records and the status
    they decide. *)
Lemma compile_summary_spec (cl : list checklist_item) (rs : list value)
      (out : list item_summary) :
  compile_summary cl rs = Ok out ->
  out = map (fun k => summary_of k (matches k rs)) (distinct_ids cl).
Proof.
  unfold compile_summary, bind.
  destruct (foldM merge_block rs (init_summary cl)) as [s|] eqn:E;
    [|discriminate].
  intro H. injection H as <-.
  apply merge_blocks_spec in E; [|apply init_summary_nodup].
  subst s. rewrite init_summary_spec.
  unfold values, extend_all. rewrite !map_map. reflexivity.
Qed.

Lemma item_ok_ext (l1 l2 : list string) (item : value) :
  (forall k, In k l1 <-> In k l2) -> item_ok l1 item = item_ok l2 item.
Proof.
  intro H. unfold item_ok.
  destruct (getitem item "Checklist Item ID") as [i|]; [|reflexivity].
  destruct (getitem item "Status") as [st|]; [|reflexivity].
  f_equal. destruct i; try reflexivity.
  apply eq_true_iff_eq. rewrite !existsb_eqb_in. apply H.
Qed.

Lemma block_ok_ext (l1 l2 : list string) (block : value) :
  (forall k, In k l1 <-> In k l2) -> block_ok l1 block = block_ok l2 block.
Proof.
  intro H. unfold block_ok.
  destruct (getitem block "block_id"); [|reflexivity].
  destruct (getitem block "Checklist Evaluation") as [ev|]; [|reflexivity].
  destruct (iter ev) as [items|]; [|reflexivity].
  apply forallb_pointwise. intro item. apply item_ok_ext, H.
Qed.

(** [compile_summary] returns exactly on the well-formed evaluations. *)
Lemma compile_summary_ok (cl : list checklist_item) (rs : list value) :
  is_ok (compile_summary cl rs) = well_formed cl rs.
Proof.
  unfold compile_summary, well_formed, bind.
  transitivity (is_ok (foldM merge_block rs (init_summary cl))).
  - destruct (foldM merge_block rs (init_summary cl)); reflexivity.
  - rewrite (loop_ok merge_block block_matches block_ok).
    + apply forallb_pointwise. intro block. apply block_ok_ext.
      intro k. rewrite keys_init_summary. apply distinct_ids_in.
    + intros. apply merge_block_spec; assumption.
    + intros. apply merge_block_ok. assumption.
    + apply init_summary_nodup.
Qed.

End AggregatorFacts.

Module AggregatorSpec.
Import Py Aggregator Reports AggregatorFacts.

Open Scope string_scope.

Lemma eq_str_true (v : value) (t : string) : eq_str v t = true <-> v = VStr t.
Proof.
  destruct v; simpl; try (split; [discriminate | congruence]).
  rewrite String.eqb_eq. split; congruence.
Qed.

Lemma mem_str_in (t : string) (l : list value) :
  mem_str t l = true <-> In (VStr t) l.
Proof.
  unfold mem_str. rewrite existsb_exists. split.
  - intros (v & Hin & E). apply eq_str_true in E. subst. assumption.
  - intro H. exists (VStr t). split; [assumption | apply eq_str_true; reflexivity].
Qed.

Lemma summary_of_id (k : string) (ms : list matched_block) :
  Checklist_Item_ID (summary_of k ms) = k.
Proof.
  unfold summary_of, finalize.
  repeat match goal with |- context [if ?b then _ else _] => destruct b end;
    reflexivity.
Qed.

Lemma summary_of_matched (k : string) (ms : list matched_block) :
  Matched_Blocks (summary_of k ms) = ms.
Proof.
  unfold summary_of, finalize.
  repeat match goal with |- context [if ?b then _ else _] => destruct b end;
    reflexivity.
Qed.

Lemma summary_of_final (k : string) (ms : list matched_block) :
  Final_Status (summary_of k ms) =
  if mem_str "Explicitly Mentioned" (map Status ms) then "Explicitly Mentioned"
  else if mem_str "Partially Mentioned" (map Status ms) then "Partially Mentioned"
  else "Missing".
Proof.
  unfold summary_of, finalize, statuses. simpl.
  repeat match goal with |- context [if ?b then _ else _] => destruct b end;
    reflexivity.
Qed.

(** Every summary of the output is the summary of a checklist id with the
    records of that id. *)
Lemma in_output (cl : list checklist_item) (rs : list value)
      (out : list item_summary) (s : item_summary) :
  compile_summary cl rs = Ok out -> In s out ->
  exists k, In k (map id cl) /\ s = summary_of k (matches k rs).
Proof.
  intros H Hin. apply compile_summary_spec in H. subst out.
  apply in_map_iff in Hin. destruct Hin as (k & <- & Hk).
  exists k. split; [apply distinct_ids_in; assumption | reflexivity].
Qed.

(** *** C1 *)

(** C1. Status precedence: in the output of [compile_summary], the statuses
    recorded for an item are the statuses other than "Missing" that the
    block evaluations report for it; if one of them is "Explicitly
    Mentioned" the final status is "Explicitly Mentioned"; otherwise, if one
    is "Partially Mentioned" it is "Partially Mentioned"; otherwise it is
    "Missing"; whatever their number and order. *)
Theorem C1_status_precedence (checklist : list checklist_item)
        (all_block_results : list value) (out : list item_summary)
        (s : item_summary) :
  compile_summary checklist all_block_results = Ok out -> In s out ->
  statuses s = map Status (matches (Checklist_Item_ID s) all_block_results)
  /\ (In (VStr "Explicitly Mentioned") (statuses s) ->
      Final_Status s = "Explicitly Mentioned")
  /\ (~ In (VStr "Explicitly Mentioned") (statuses s) ->
      In (VStr "Partially Mentioned") (statuses s) ->
      Final_Status s = "Partially Mentioned")
  /\ (~ In (VStr "Explicitly Mentioned") (statuses s) ->
      ~ In (VStr "Partially Mentioned") (statuses s) ->
      Final_Status s = "Missing").
Proof.
  intros H Hin. destruct (@in_output _ _ _ _ H Hin) as (k & _ & ->).
  unfold statuses. rewrite summary_of_id, summary_of_matched, summary_of_final.
  split; [reflexivity|].
  destruct (mem_str "Explicitly Mentioned" (map Status (matches k all_block_results)))
    eqn:Ee.
  - repeat split; try reflexivity; intro Hn; exfalso; apply Hn;
      apply mem_str_in; assumption.
  - assert (He : ~ In (VStr "Explicitly Mentioned")
                      (map Status (matches k all_block_results)))
      by (rewrite <- mem_str_in; congruence).
    destruct (mem_str "Partially Mentioned" (map Status (matches k all_block_results)))
      eqn:Ep.
    + repeat split; try reflexivity; try contradiction.
      intros _ Hn. exfalso. apply Hn. apply mem_str_in. assumption.
    + assert (Hp : ~ In (VStr "Partially Mentioned")
                        (map Status (matches k all_block_results)))
        by (rewrite <- mem_str_in; congruence).
      repeat split; try reflexivity; contradiction.
Qed.

Lemma C1_status_precedence_witness :
  exists s rest,
    compile_summary section_4_checklist Examples.two_blocks = Ok (s :: rest)
    /\ Checklist_Item_ID s = "4.1"
    /\ Final_Status s = "Explicitly Mentioned".
Proof.
  destruct (compile_summary section_4_checklist Examples.two_blocks)
    as [[|s rest]|] eqn:E; try discriminate E.
  exists s, rest. split; [reflexivity|].
  pose proof (@C1_status_precedence section_4_checklist Examples.two_blocks
                (s :: rest) s E (or_introl eq_refl)) as (Hs & He & _).
  injection E as Es _. subst s. split; [reflexivity|].
  apply He. rewrite Hs. simpl. auto.
Defined.

(** *** C3 *)

Lemma item_match_unmentioned (k : string) (block_id item : value) :
  (getitem item "Checklist Item ID" = Ok (VStr k) ->
   getitem item "Status" = Ok (VStr "Missing")) ->
  item_match k block_id item = [].
Proof.
  intro H. unfold item_match.
  destruct (getitem item "Checklist Item ID") as [[| | |k'| |]|]; try reflexivity.
  destruct (String.eqb_spec k' k) as [-> | _]; simpl.
  - rewrite H by reflexivity. reflexivity.
  - destruct (getitem item "Status"); reflexivity.
Qed.

Lemma flat_map_nil (A B : Type) (f : A -> list B) (l : list A) :
  (forall x, In x l -> f x = []) -> flat_map f l = [].
Proof.
  induction l as [|x l IH]; simpl; intro H; [reflexivity|].
  rewrite H by now left. apply IH. intros y Hy. apply H. now right.
Qed.

Lemma matches_unmentioned (k : string) (rs : list value) :
  (forall block item,
      In block rs -> In item (entries_of block) ->
      getitem item "Checklist Item ID" = Ok (VStr k) ->
      getitem item "Status" = Ok (VStr "Missing")) ->
  matches k rs = [].
Proof.
  intro H. unfold matches. apply flat_map_nil. intros block Hb.
  unfold block_matches. destruct (getitem block "block_id"); [|reflexivity].
  apply flat_map_nil. intros item Hi.
  apply item_match_unmentioned. apply (H block item Hb Hi).
Qed.

(** C3, amended. Completeness: for a checklist of N items with pairwise
    distinct ids and block evaluations that are well formed (every item has
    an id and a status, and every status other than "Missing" is reported
    for an id of the checklist), [compile_summary] returns exactly N
    summaries, one per checklist item, in checklist order; an item for which
    the blocks report nothing, or only "Missing", has final status "Missing"
    and no matched block. *)
Theorem C3_one_summary_per_item (checklist : list checklist_item)
        (all_block_results : list value) :
  NoDup (map id checklist) ->
  well_formed checklist all_block_results = true ->
  exists out,
    compile_summary checklist all_block_results = Ok out
    /\ List.length out = List.length checklist
    /\ map Checklist_Item_ID out = map id checklist
    /\ forall s,
        In s out ->
        (forall block item,
            In block all_block_results -> In item (entries_of block) ->
            getitem item "Checklist Item ID" = Ok (VStr (Checklist_Item_ID s)) ->
            getitem item "Status" = Ok (VStr "Missing")) ->
        Final_Status s = "Missing" /\ Matched_Blocks s = [].
Proof.
  intros Hnd Hwf. rewrite <- compile_summary_ok in Hwf.
  destruct (compile_summary checklist all_block_results) as [out|] eqn:E;
    [|discriminate].
  exists out. split; [reflexivity|].
  pose proof (@compile_summary_spec _ _ _ E) as Hout.
  rewrite (@distinct_ids_nodup_ids _ Hnd) in Hout.
  assert (Hids : map Checklist_Item_ID out = map id checklist).
  { subst out. rewrite map_map. rewrite <- (map_id (map id checklist)) at 2.
    apply map_ext. intro k. apply summary_of_id. }
  split; [|split; [assumption|]].
  - rewrite <- (length_map Checklist_Item_ID), Hids. apply length_map.
  - intros s Hin Hno. destruct (@in_output _ _ _ _ E Hin) as (k & _ & ->).
    rewrite summary_of_id in Hno.
    rewrite summary_of_final, summary_of_matched.
    rewrite (@matches_unmentioned _ _ Hno). split; reflexivity.
Qed.

Lemma C3_one_summary_per_item_witness :
  exists out,
    compile_summary section_4_checklist Examples.two_blocks = Ok out
    /\ List.length out = 4%nat
    /\ map Checklist_Item_ID out = ["4.1"; "4.2"; "4.3"; "4.4"].
Proof.
  destruct (@C3_one_summary_per_item section_4_checklist Examples.two_blocks)
    as (out & E & Hlen & Hids & _).
  - simpl. repeat constructor; simpl; intuition discriminate.
  - reflexivity.
  - exists out. auto.
Defined.

(** The claim as worded fails on a checklist that repeats an id, and on an
    evaluation that reports a status for an id the checklist does not
    have. *)
Lemma C3_any_input_counterexample :
  (exists out,
      compile_summary [ {| id := "4.1"; text := "a" |};
                        {| id := "4.1"; text := "b" |} ] [] = Ok out
      /\ List.length out = 1%nat)
  /\ compile_summary section_4_checklist
       [Examples.evaluation "BLOCK1"
          [Examples.entry "9.9" "Explicitly Mentioned" (Some "states X")]]
     = Raise KeyError.
Proof.
  split; [eexists; split; reflexivity | reflexivity].
Qed.

(** *** C4 *)

Lemma merge_item_missing (block_id : value) (s : summary_dict)
      (item item_id : value) :
  getitem item "Checklist Item ID" = Ok item_id ->
  getitem item "Status" = Ok (VStr "Missing") ->
  merge_item block_id s item = Ok s.
Proof.
  intros Ei Es. unfold merge_item, bind. rewrite Ei, Es. reflexivity.
Qed.

(** A block gives the same result with and without an item whose status
    is "Missing". *)
Lemma merge_block_drop_missing (s : summary_dict) (d : list (string * value))
      (l1 l2 : list value) (item item_id : value) :
  dict_get d "Checklist Evaluation" = Some (VList (l1 ++ item :: l2)) ->
  getitem item "Checklist Item ID" = Ok item_id ->
  getitem item "Status" = Ok (VStr "Missing") ->
  merge_block s (VDict d)
  = merge_block s
      (VDict (dict_set d "Checklist Evaluation" (VList (l1 ++ l2)))).
Proof.
  intros Hd Ei Es. unfold merge_block, getitem.
  rewrite dict_get_set_other by discriminate.
  rewrite dict_get_set_same, Hd.
  destruct (dict_get d "block_id") as [bid|]; [|reflexivity].
  simpl. rewrite !foldM_app. simpl.
  destruct (foldM (merge_item bid) l1 s) as [s1|]; [|reflexivity].
  simpl. rewrite (@merge_item_missing bid s1 item item_id Ei Es).
  reflexivity.
Qed.

Lemma compile_summary_congr (cl : list checklist_item)
      (pre post : list value) (b b' : value) :
  (forall s, merge_block s b = merge_block s b') ->
  compile_summary cl (pre ++ b :: post) = compile_summary cl (pre ++ b' :: post).
Proof.
  intro H. unfold compile_summary. rewrite !foldM_app. simpl.
  destruct (foldM merge_block pre (init_summary cl)) as [s|]; [|reflexivity].
  simpl. rewrite H. reflexivity.
Qed.





(** *** C6 *)

Lemma in_item_match (k : string) (block_id item : value) (m : matched_block) :
  In m (item_match k block_id item) ->
  getitem item "Checklist Item ID" = Ok (VStr k)
  /\ getitem item "Status" = Ok (Status m)
  /\ Status m <> VStr "Missing"
  /\ Block_ID m = block_id
  /\ get item "Justification" (VStr "") = Ok (Justification m).
Proof.
  unfold item_match.
  destruct (getitem item "Checklist Item ID") as [[| | |k'| |]|];
    try (intros []).
  destruct (getitem item "Status") as [st|]; [|intros []].
  destruct (String.eqb_spec k' k) as [-> | _]; [|intros []].
  destruct (eq_str st "Missing") eqn:Em; [intros []|]. simpl.
  destruct (get item "Justification" (VStr "")) as [j|]; [|intros []].
  intros [<- | []]. simpl. repeat split.
  intro E. apply eq_str_true in E. congruence.
Qed.

Lemma in_matches (k : string) (rs : list value) (m : matched_block) :
  In m (matches k rs) ->
  exists block item,
    In block rs /\ In item (entries_of block)
    /\ getitem block "block_id" = Ok (Block_ID m)
    /\ In m (item_match k (Block_ID m) item).
Proof.
  unfold matches. rewrite in_flat_map. intros (block & Hb & Hm).
  unfold block_matches in Hm.
  destruct (getitem block "block_id") as [bid|] eqn:Eb; [|destruct Hm].
  apply in_flat_map in Hm. destruct Hm as (item & Hi & Hm).
  pose proof (in_item_match _ _ _ _ Hm) as (_ & _ & _ & Hbid & _).
  subst bid. exists block, item. auto.
Qed.

(** C6, amended. Matched blocks: in the output of [compile_summary], no
    matched block has status "Missing"; each comes from an item, a JSON
    object, of a block evaluation that names the checklist item with that
    status; its justification is the value the item has under
    "Justification", whatever JSON value that is, and the empty string
    when the item has no such key; so it is a string whenever the value
    the item supplies is one. *)
Theorem C6_matched_blocks (checklist : list checklist_item)
        (all_block_results : list value) (out : list item_summary)
        (s : item_summary) (m : matched_block) :
  compile_summary checklist all_block_results = Ok out ->
  In s out -> In m (Matched_Blocks s) ->
  Status m <> VStr "Missing"
  /\ exists b d,
      In (VDict b) all_block_results
      /\ In (VDict d) (entries_of (VDict b))
      /\ dict_get b "block_id" = Some (Block_ID m)
      /\ dict_get d "Checklist Item ID" = Some (VStr (Checklist_Item_ID s))
      /\ dict_get d "Status" = Some (Status m)
      /\ (forall j, dict_get d "Justification" = Some j ->
                    Justification m = j)
      /\ (dict_get d "Justification" = None -> Justification m = VStr "")
      /\ ((forall j, dict_get d "Justification" = Some j ->
                     is_string j = true) ->
          is_string (Justification m) = true).
Proof.
  intros H Hin Hm. destruct (@in_output _ _ _ _ H Hin) as (k & _ & ->).
  rewrite summary_of_matched in Hm. rewrite summary_of_id.
  apply in_matches in Hm. destruct Hm as (block & item & Hb & Hi & Hbid & Hm).
  apply in_item_match in Hm. destruct Hm as (Ei & Es & Hne & _ & Ej).
  split; [assumption|].
  apply getitem_dict in Hbid. destruct Hbid as (b & -> & Hbid).
  apply getitem_dict in Ei. destruct Ei as (d & -> & Ei).
  apply getitem_dict in Es. destruct Es as (d' & Ed & Es).
  injection Ed as <-.
  exists b, d. cbn [get] in Ej.
  destruct (dict_get d "Justification") as [j0|];
    injection Ej as Ej; repeat split; try assumption.
  - intros j Hj. congruence.
  - discriminate.
  - intro Hs. rewrite <- Ej. apply Hs. reflexivity.
  - discriminate.
  - intros _. congruence.
  - intros _. rewrite <- Ej. reflexivity.
Qed.

Lemma C6_matched_blocks_witness :
  let m := {| Block_ID := VStr "BLOCK2";
              Status := VStr "Partially Mentioned";
              Justification := VStr "" |} in
  In m (matches "4.3" Examples.two_blocks)
  /\ Status m <> VStr "Missing"
  /\ exists d,
      dict_get d "Status" = Some (Status m)
      /\ dict_get d "Justification" = None.
Proof.
  cbv zeta. split; [simpl; auto|].
  destruct (@C6_matched_blocks section_4_checklist Examples.two_blocks
              _ (summary_of "4.3" (matches "4.3" Examples.two_blocks))
              {| Block_ID := VStr "BLOCK2";
                 Status := VStr "Partially Mentioned";
                 Justification := VStr "" |} eq_refl)
    as (Hne & b & d & Hb & Hd & _ & Hid & Hst & _).
  - simpl. auto.
  - simpl. auto.
  - split; [assumption|]. exists d. split; [assumption|].
    destruct Hb as [Eb | [Eb | []]]; injection Eb as <-;
      destruct Hd as [Ed | Hd]; try destruct Hd as [Ed | Hd];
      try destruct Hd as [Ed | Hd]; try destruct Hd;
      injection Ed as <-; try discriminate Hid; reflexivity.
Defined.

(** The claim as worded fails: a justification that an item supplies is
    stored as it is, so an item with "Justification": null leaves a matched
    block whose justification is [None], not a string. *)
Lemma C6_null_justification_counterexample :
  compile_summary [ {| id := "4.1"; text := "" |} ]
    [ Examples.evaluation "BLOCK1"
        [ VDict [ ("Checklist Item ID", VStr "4.1");
                  ("Status", VStr "Explicitly Mentioned");
                  ("Justification", VNone) ] ] ]
  = Ok [ {| Checklist_Item_ID := "4.1";
            Final_Status := "Explicitly Mentioned";
            Matched_Blocks :=
              [ {| Block_ID := VStr "BLOCK1";
                   Status := VStr "Explicitly Mentioned";
                   Justification := VNone |} ] |} ]
  /\ is_string VNone = false.
Proof. split; reflexivity. Qed.

End AggregatorSpec.

(** * The block loop *)

Module AppSpec.
Import Py Aggregator App Reports AggregatorFacts.

Open Scope string_scope.

(** A response that [json.loads] rejects is reported and left out. *)
Lemma undecodable_response_skipped (i : nat) (rest : list (option value))
      (all_block_results : list value) (errors : list nat) :
  block_loop i (None :: rest) (all_block_results, errors)
  = block_loop (S i) rest (all_block_results, (errors ++ [i])%list).
Proof. reflexivity. Qed.

(** A response that is a JSON object without "Checklist Evaluation" is
    reported too, but it has been appended before the expander raises. *)
Lemma malformed_response_kept (i : nat) (d : list (string * value))
      (rest : list (option value)) (all_block_results : list value)
      (errors : list nat) :
  dict_get d "Checklist Evaluation" = None ->
  block_loop i (Some (VDict d) :: rest) (all_block_results, errors)
  = block_loop (S i) rest
      ((all_block_results
          ++ [VDict (dict_set d "block_id" (VStr (block_label i)))])%list,
       (errors ++ [i])%list).
Proof.
  intro Hd. cbn [block_loop try_block setitem].
  unfold show_block, getitem.
  rewrite dict_get_set_other by discriminate. rewrite Hd. reflexivity.
Qed.

Lemma block_loop_keeps (responses : list (option value)) (i : nat)
      (all_block_results : list value) (errors : list nat) (b : value) :
  In b all_block_results ->
  In b (fst (block_loop i responses (all_block_results, errors))).
Proof.
  revert i all_block_results errors.
  induction responses as [|r responses IH]; intros i all errors Hin;
    [assumption|].
  cbn [block_loop]. destruct (try_block i r all) as [all' outcome] eqn:E.
  apply IH. unfold try_block in E.
  destruct r as [parsed|]; [|injection E as <- _; assumption].
  destruct (setitem parsed "block_id" (VStr (block_label i)));
    injection E as <- _; [|assumption].
  apply in_or_app. now left.
Qed.

Lemma malformed_response_aggregated (pre post : list (option value))
      (d : list (string * value)) (i : nat) (all_block_results : list value)
      (errors : list nat) :
  dict_get d "Checklist Evaluation" = None ->
  exists j,
    In (VDict (dict_set d "block_id" (VStr (block_label j))))
       (fst (block_loop i (pre ++ Some (VDict d) :: post)
                        (all_block_results, errors))).
Proof.
  intro Hd. revert i all_block_results errors.
  induction pre as [|r pre IH]; intros i all errors.
  - exists i. cbn [app]. rewrite malformed_response_kept by assumption.
    apply block_loop_keeps. apply in_or_app. right. now left.
  - cbn [app block_loop]. destruct (try_block i r all) as [all' outcome].
    apply IH.
Qed.

(** Whatever the other responses, such a response makes [compile_summary]
    raise after the loop. *)
Lemma malformed_response_aborts (pre post : list (option value))
      (d : list (string * value)) :
  dict_get d "Checklist Evaluation" = None ->
  exists e, fst (run_compliance_check (pre ++ Some (VDict d) :: post)) = Raise e.
Proof.
  intro Hd. unfold run_compliance_check.
  destruct (@malformed_response_aggregated pre post d 1 [] [] Hd) as (j & Hin).
  destruct (block_loop 1 (pre ++ Some (VDict d) :: post) ([], []))
    as [all errors]. cbn [fst] in *.
  destruct (compile_summary section_4_checklist all) as [out|e] eqn:E;
    [|eauto].
  exfalso.
  assert (Hwf : well_formed section_4_checklist all = true)
    by (rewrite <- compile_summary_ok, E; reflexivity).
  unfold well_formed in Hwf. rewrite forallb_forall in Hwf.
  specialize (Hwf _ Hin). unfold block_ok, getitem in Hwf.
  rewrite dict_get_set_same in Hwf.
  rewrite dict_get_set_other in Hwf by discriminate.
  rewrite Hd in Hwf. discriminate.
Qed.

(** C8. Per-block failure containment, at a response that is valid JSON
    but has no "Checklist Evaluation": the block is reported as failed,
    yet it stays in [all_block_results] and [compile_summary] raises
    [KeyError], so no summary is produced from the first block's findings;
    had [json.loads] rejected the second response, the first block would
    have been summarised. *)
Theorem C8_malformed_response_aborts_run :
  run_compliance_check
    [ Some (Examples.response
              [Examples.entry "4.1" "Explicitly Mentioned" (Some "states X")]);
      Some (VDict []) ]
  = (Raise KeyError, [2])
  /\ run_compliance_check
       [ Some (Examples.response
                 [Examples.entry "4.1" "Explicitly Mentioned" (Some "states X")]);
         None ]
     = (compile_summary section_4_checklist
          [Examples.evaluation "BLOCK1"
             [Examples.entry "4.1" "Explicitly Mentioned" (Some "states X")]],
        [2])
  /\ is_ok (compile_summary section_4_checklist
              [Examples.evaluation "BLOCK1"
                 [Examples.entry "4.1" "Explicitly Mentioned" (Some "states X")]])
     = true.
Proof. repeat split. Qed.

End AppSpec.

(** * Further properties of the segmenter *)

Module SegmenterMore.
Import PyStr Re Segmenter Shapes Pdf Counts ReFacts StrFacts SegmenterSpec.

Open Scope N_scope.

(** *** Blank texts *)

Lemma lstrip_suffix (s : text) :
  exists ws, s = ws ++ lstrip s /\ forallb isspace ws = true.
Proof.
  induction s as [|c s (ws & E & H)]; simpl.
  - exists []. auto.
  - destruct (isspace c) eqn:Ec.
    + exists (c :: ws). simpl. rewrite Ec, H. split; [congruence | reflexivity].
    + exists []. auto.
Qed.

Lemma strip_nil_spaces (s : text) : strip s = [] -> forallb isspace s = true.
Proof.
  intro H. destruct (lstrip_suffix s) as (ws & E & Hws).
  unfold strip in H.
  destruct (lstrip_head s) as [El | (c & rest & El & Hc)].
  - rewrite El, app_nil_r in E. subst ws. assumption.
  - rewrite El, rstrip_cons in H by assumption. discriminate.
Qed.

Lemma strip_nil_iff (s : text) : strip s = [] <-> forallb isspace s = true.
Proof. split; [apply strip_nil_spaces | apply strip_spaces]. Qed.

(** Every character that is not a line boundary is in some line. *)
Lemma splitlines_from_covers (s cur : text) (after_cr : bool) (c : char) :
  In c cur \/ (In c s /\ is_linebreak c = false) ->
  exists line, In line (splitlines_from after_cr cur s) /\ In c line.
Proof.
  revert cur after_cr. induction s as [|a s IH]; intros cur after_cr H.
  - destruct H as [H | [[] _]]. simpl. destruct cur; [destruct H|].
    eexists. split; [now left | assumption].
  - simpl. destruct (after_cr && (a =? LF)) eqn:E1.
    + apply IH. destruct H as [H | [[-> | H] Hc]]; auto.
      apply andb_true_iff in E1. destruct E1 as [_ E1].
      apply N.eqb_eq in E1. subst c. discriminate.
    + destruct (is_linebreak a) eqn:E2.
      * destruct H as [H | [[-> | H] Hc]].
        -- exists cur. split; [now left | assumption].
        -- congruence.
        -- destruct (IH [] (a =? CR) (or_intror (conj H Hc)))
             as (line & Hl & Hin).
           exists line. split; [now right | assumption].
      * apply IH. destruct H as [H | [[-> | H] Hc]].
        -- left. apply in_or_app. now left.
        -- left. apply in_or_app. right. now left.
        -- right. auto.
Qed.

Lemma blank_lines_spaces (t : text) :
  (forall line, In line (splitlines t) -> strip line = []) ->
  forallb isspace t = true.
Proof.
  intro H. apply forallb_forall. intros c Hc.
  destruct (is_linebreak c) eqn:E; [apply linebreak_isspace; assumption|].
  destruct (@splitlines_from_covers t [] false c (or_intror (conj Hc E)))
    as (line & Hl & Hin).
  pose proof (strip_nil_spaces _ (H line Hl)) as Hs.
  rewrite forallb_forall in Hs. apply Hs. assumption.
Qed.

Lemma stripped_lines_nil_iff (t : text) :
  stripped_lines t = [] <-> strip t = [].
Proof.
  rewrite strip_nil_iff. split.
  - intro H. apply blank_lines_spaces. intros line Hl.
    destruct (strip line) as [|c rest] eqn:E; [reflexivity|].
    assert (Hin : In (strip line) (stripped_lines t)).
    { apply filter_In. split; [apply in_map; assumption|].
      rewrite E. reflexivity. }
    rewrite H in Hin. destruct Hin.
  - intro H. unfold stripped_lines.
    destruct (filter nonempty (map strip (splitlines t))) as [|x l] eqn:E;
      [reflexivity|].
    assert (Hin : In x (x :: l)) by now left.
    rewrite <- E in Hin. apply filter_In in Hin. destruct Hin as [Hin Hne].
    apply in_map_iff in Hin. destruct Hin as (line & <- & Hl).
    rewrite (whitespace_lines_blank t H line Hl) in Hne. discriminate.
Qed.

(** X1. [break_into_blocks] returns no block exactly when the text is
    empty once stripped, which is the test the "Run Compliance Check"
    button makes before it segments: a run that starts has at least one
    block to evaluate. *)
Theorem X1_no_block_iff_blank (t : text) :
  break_into_blocks t = [] <-> strip t = [].
Proof.
  rewrite <- stripped_lines_nil_iff.
  destruct (blocks_are_groups t) as (G & Hb & Hg & Hc).
  rewrite Hb, <- Hc. split.
  - intro H. apply map_eq_nil in H. subst G. reflexivity.
  - intro H. destruct G as [|g G]; [reflexivity|].
    inversion Hg; subst. simpl in H. destruct g; [congruence | discriminate].
Qed.

(** *** The shape of a block *)

Lemma stripped_lines_solid (t : text) : Forall solid (stripped_lines t).
Proof.
  apply Forall_forall. intros x Hx. unfold stripped_lines in Hx.
  apply filter_In in Hx. destruct Hx as [Hx Hn].
  apply in_map_iff in Hx. destruct Hx as (l & <- & _).
  apply stripped_solid. assumption.
Qed.

Lemma Forall_concat_group (A : Type) (P : A -> Prop) (G : list (list A))
      (g : list A) :
  Forall P (List.concat G) -> In g G -> Forall P g.
Proof.
  induction G as [|g' G IH]; simpl; intros H Hin; [destruct Hin|].
  apply Forall_app in H. destruct Hin as [-> | Hin].
  - apply H.
  - apply IH; [apply H | assumption].
Qed.

(** X2. Every block [break_into_blocks] returns is non-empty and begins
    and ends with a character that is not white space. *)
Theorem X2_blocks_are_solid (t : text) (block : text) :
  In block (break_into_blocks t) -> block <> [] /\ solid block.
Proof.
  destruct (blocks_are_groups t) as (G & Hb & Hg & Hc).
  rewrite Hb. intro Hin. apply in_map_iff in Hin.
  destruct Hin as (g & <- & Hin).
  assert (Hs : solid (join [SP] g)).
  { apply solid_join.
    - rewrite Forall_forall in Hg. apply Hg. assumption.
    - apply (@Forall_concat_group _ solid G g); [|assumption].
      rewrite Hc. apply stripped_lines_solid. }
  split; [apply solid_nonempty|]; assumption.
Qed.

Lemma X2_blocks_are_solid_witness :
  solid (u "Purpose stated here").
Proof.
  apply (@X2_blocks_are_solid
           (u "   Purpose " ++ [9; LF; LF] ++ u "  stated here  ")
           (u "Purpose stated here")).
  now left.
Defined.

(** *** Blank lines and indentation *)

Lemma fold_stripped (lines : list text) (st : list text * list text) :
  fold_left step (filter nonempty (map strip lines)) st
  = fold_left step lines st.
Proof.
  revert st. induction lines as [|line lines IH]; intro st; [reflexivity|].
  cbn [map filter fold_left]. destruct (nonempty (strip line)) eqn:Hn.
  - cbn [fold_left]. rewrite IH.
    destruct st as [blocks cur]. unfold step.
    rewrite strip_strip. reflexivity.
  - rewrite IH. rewrite step_blank; [reflexivity|].
    destruct (strip line); [reflexivity | discriminate].
Qed.

(** X3. The segmentation depends only on the non-blank lines, each
    stripped: two texts with the same stripped non-blank lines get the same
    blocks, whatever their blank lines, indentation, trailing spaces and
    kinds of line boundary. *)
Theorem X3_blocks_from_stripped_lines (t1 t2 : text) :
  stripped_lines t1 = stripped_lines t2 ->
  break_into_blocks t1 = break_into_blocks t2.
Proof.
  intro H. unfold break_into_blocks.
  rewrite <- (fold_stripped (splitlines t1)), <- (fold_stripped (splitlines t2)).
  fold (stripped_lines t1). fold (stripped_lines t2). rewrite H. reflexivity.
Qed.

Lemma X3_blocks_from_stripped_lines_witness :
  break_into_blocks (u "TITLE" ++ [CR; LF; LF] ++ u "   body text  " ++ [LF])
  = break_into_blocks (u "  TITLE " ++ [8232] ++ u "body text").
Proof.
  apply X3_blocks_from_stripped_lines. vm_compute. reflexivity.
Defined.

(** *** The number of blocks *)

Lemma held_blocks_step (blocks cur : list text) (line : text) :
  cur <> [] -> nonempty (strip line) = true ->
  snd (step (blocks, cur) line) <> []
  /\ held_blocks (step (blocks, cur) line)
     = (held_blocks (blocks, cur)
        + if is_heading (strip line) then 1 else 0)%nat.
Proof.
  intros Hc Hn. destruct (is_heading (strip line)) eqn:Hh.
  - rewrite step_heading by assumption.
    destruct cur as [|x cur]; [congruence|].
    unfold held_blocks. cbn [fst snd]. rewrite length_app. simpl.
    split; [discriminate | lia].
  - rewrite step_plain by assumption.
    destruct cur as [|x cur]; [congruence|].
    unfold held_blocks. cbn [fst snd]. simpl.
    split; [discriminate | lia].
Qed.

Lemma held_blocks_fold (lines : list text) (blocks cur : list text) :
  cur <> [] ->
  snd (fold_left step lines (blocks, cur)) <> []
  /\ held_blocks (fold_left step lines (blocks, cur))
     = (held_blocks (blocks, cur)
        + count_headings (filter nonempty (map strip lines)))%nat.
Proof.
  revert blocks cur. induction lines as [|line lines IH]; intros blocks cur Hc.
  - cbn [fold_left]. unfold count_headings. simpl. split; [assumption | lia].
  - cbn [fold_left map filter]. destruct (nonempty (strip line)) eqn:Hn.
    + destruct (held_blocks_step blocks line Hc Hn) as [Hc' E].
      destruct (step (blocks, cur) line) as [blocks' cur'].
      destruct (IH blocks' cur' Hc') as [Hc'' E'].
      split; [assumption|]. rewrite E', E.
      unfold count_headings. cbn [filter].
      destruct (is_heading (strip line)); simpl; lia.
    + rewrite step_blank
        by (destruct (strip line); [reflexivity | discriminate]).
      apply IH. assumption.
Qed.

Lemma held_blocks_start (lines : list text) :
  held_blocks (fold_left step lines ([], []))
  = match filter nonempty (map strip lines) with
    | [] => 0%nat
    | _ :: rest => S (count_headings rest)
    end.
Proof.
  induction lines as [|line lines IH]; [reflexivity|].
  cbn [fold_left map filter]. destruct (nonempty (strip line)) eqn:Hn.
  - assert (E : step ([], []) line = ([], [strip line])).
    { destruct (is_heading (strip line)) eqn:Hh;
        [rewrite step_heading | rewrite step_plain]; auto. }
    rewrite E.
    destruct (@held_blocks_fold lines [] [strip line]) as [_ E'];
      [discriminate|].
    rewrite E'. reflexivity.
  - rewrite step_blank
      by (destruct (strip line); [reflexivity | discriminate]).
    assumption.
Qed.

(** X4. The number of blocks: none for a text without non-blank line;
    otherwise one for the first non-blank line, heading or not, and one
    more for each later line that is a heading. *)
Theorem X4_number_of_blocks (t : text) :
  List.length (break_into_blocks t)
  = match stripped_lines t with
    | [] => 0%nat
    | _ :: rest => S (count_headings rest)
    end.
Proof.
  unfold stripped_lines. rewrite <- held_blocks_start.
  unfold break_into_blocks, held_blocks.
  destruct (fold_left step (splitlines t) ([], [])) as [blocks cur].
  cbn [fst snd]. destruct cur; [lia|].
  rewrite length_app. reflexivity.
Qed.

(** *** Pages *)

Lemma splitlines_from_line_feed (a b cur : text) (after_cr : bool) :
  (after_cr = true -> cur = []) ->
  filter nonempty (map strip (splitlines_from after_cr cur (a ++ LF :: b)))
  = filter nonempty (map strip (splitlines_from after_cr cur a))
    ++ filter nonempty (map strip (splitlines b)).
Proof.
  revert cur after_cr. induction a as [|c a IH]; intros cur after_cr Hcr.
  - cbn [app splitlines_from]. destruct after_cr.
    + rewrite (Hcr eq_refl). reflexivity.
    + cbn [andb]. change (is_linebreak LF) with true. cbv iota.
      change (LF =? CR) with false. fold (splitlines b).
      destruct cur as [|x cur]; [reflexivity|].
      cbn [map filter app]. destruct (nonempty (strip (x :: cur))); reflexivity.
  - cbn [app splitlines_from]. destruct (after_cr && (c =? LF)).
    + apply IH. discriminate.
    + destruct (is_linebreak c).
      * cbn [map filter]. rewrite IH by reflexivity.
        destruct (nonempty (strip cur)); reflexivity.
      * apply IH. discriminate.
Qed.

Lemma stripped_lines_line_feed (a b : text) :
  stripped_lines (a ++ LF :: b) = stripped_lines a ++ stripped_lines b.
Proof.
  unfold stripped_lines, splitlines at 1 2.
  apply splitlines_from_line_feed. discriminate.
Qed.

(** X5. Extracted pages: the non-blank stripped lines of the text
    [extract_text_from_pdf] builds are those of the pages, page after page:
    a page boundary is a line boundary and nothing more, so the blocks of a
    document are those of its lines in page order and a block may run over
    a page boundary. *)
Theorem X5_lines_of_extracted_pages (pages : list text) :
  stripped_lines (extract_text_from_pdf pages)
  = flat_map stripped_lines pages
  /\ forall pages',
      flat_map stripped_lines pages' = flat_map stripped_lines pages ->
      break_into_blocks (extract_text_from_pdf pages')
      = break_into_blocks (extract_text_from_pdf pages).
Proof.
  assert (H : forall ps,
             stripped_lines (extract_text_from_pdf ps)
             = flat_map stripped_lines ps).
  { unfold extract_text_from_pdf.
    induction ps as [|p ps IH]; [reflexivity|].
    destruct ps as [|q ps].
    - simpl. rewrite app_nil_r. reflexivity.
    - rewrite join_cons by discriminate.
      change ([LF] ++ join [LF] (q :: ps)) with (LF :: join [LF] (q :: ps)).
      rewrite stripped_lines_line_feed, IH. reflexivity. }
  split; [apply H|].
  intros pages' E. unfold break_into_blocks.
  rewrite <- (fold_stripped (splitlines (extract_text_from_pdf pages'))).
  rewrite <- (fold_stripped (splitlines (extract_text_from_pdf pages))).
  fold (stripped_lines (extract_text_from_pdf pages')).
  fold (stripped_lines (extract_text_from_pdf pages)).
  rewrite !H, E. reflexivity.
Qed.

(** *** Blocks begin at headings *)

Lemma cut_snoc (G : list (list text)) (g : list text) :
  G <> [] -> cut_at_headings G -> headed g -> plain_tail g ->
  cut_at_headings (G ++ [g]).
Proof.
  destruct G as [|g0 Gs]; [congruence|]. intros _ [H0 Hs] Hh Hp.
  cbn [app cut_at_headings]. split; [assumption|].
  apply Forall_app. split; [assumption|]. constructor; [auto | constructor].
Qed.

Lemma plain_tail_snoc (g : list text) (x : text) :
  plain_tail g -> is_heading x = false -> plain_tail (g ++ [x]).
Proof.
  destruct g as [|y g]; [intros []|]. cbn [app plain_tail]. intros H Hx.
  rewrite forallb_app, H. simpl. rewrite Hx. reflexivity.
Qed.

Lemma headed_snoc (g : list text) (x : text) : headed g -> headed (g ++ [x]).
Proof. destruct g; [intros [] | auto]. Qed.

Lemma cut_extend_last (G : list (list text)) (cur : list text) (x : text) :
  cut_at_headings (G ++ [cur]) -> is_heading x = false ->
  cut_at_headings (G ++ [cur ++ [x]]).
Proof.
  destruct G as [|g0 Gs]; cbn [app cut_at_headings]; intros [H0 Hs] Hx.
  - split; [apply plain_tail_snoc; assumption | constructor].
  - split; [assumption|]. apply Forall_app in Hs. destruct Hs as [Hs Hc].
    apply Forall_app. split; [assumption|].
    inversion Hc as [|? ? [Hh Hp] _]; subst.
    constructor; [|constructor].
    split; [apply headed_snoc | apply plain_tail_snoc]; assumption.
Qed.

Lemma cut_step (G : list (list text)) (st : list text * list text)
      (line : text) :
  grouped G st -> cut_state G st ->
  exists G',
    grouped G' (step st line) /\ cut_state G' (step st line)
    /\ held G' (step st line) = held G st ++ filter nonempty [strip line].
Proof.
  destruct st as [blocks cur]. intros Hg Hc.
  destruct (nonempty (strip line)) eqn:Hn.
  - pose proof (stripped_solid line Hn) as Hsolid.
    cbn [filter]. rewrite Hn.
    destruct Hg as (Hb & Hne & Hs). cbn [fst snd] in Hb, Hs.
    unfold cut_state in Hc. cbn [snd] in Hc.
    destruct (is_heading (strip line)) eqn:Hh.
    + rewrite step_heading by assumption. destruct cur as [|x cur].
      * subst G. exists []. unfold grouped, cut_state, held. cbn [fst snd].
        simpl. repeat split; try assumption.
        -- constructor; [assumption | constructor].
        -- constructor.
      * exists (G ++ [x :: cur]). unfold grouped, cut_state, held.
        cbn [fst snd]. rewrite map_app, concat_app. cbn [map List.concat].
        rewrite app_nil_r. split; [split; [|split] | split].
        -- rewrite Hb. f_equal. f_equal. unfold close_block.
           apply Forall_app in Hs. destruct Hs as [_ Hsc].
           apply solid_strip, solid_join; [discriminate | assumption].
        -- apply Forall_app. split; [assumption|].
           constructor; [discriminate | constructor].
        -- apply Forall_app. split; [assumption | now constructor].
        -- apply cut_snoc; try assumption.
           ++ destruct G; discriminate.
           ++ reflexivity.
        -- rewrite <- !app_assoc. reflexivity.
    + rewrite step_plain by assumption.
      exists G. unfold grouped, cut_state, held. cbn [fst snd].
      split; [split; [|split] | split]; try assumption.
      * rewrite app_assoc. apply Forall_app. split; [assumption | now constructor].
      * destruct cur as [|x cur].
        -- subst G. simpl. split; [reflexivity | constructor].
        -- change ((x :: cur) ++ [strip line])
             with (x :: (cur ++ [strip line])).
           change (x :: (cur ++ [strip line]))
             with ((x :: cur) ++ [strip line]).
           destruct ((x :: cur) ++ [strip line]) as [|y l] eqn:E;
             [discriminate|].
           rewrite <- E. apply cut_extend_last; assumption.
      * rewrite app_assoc. reflexivity.
  - assert (E : strip line = [])
      by (destruct (strip line); [reflexivity | discriminate]).
    rewrite step_blank by assumption. rewrite E. cbn [filter nonempty].
    exists G. rewrite app_nil_r. auto.
Qed.

Lemma cut_fold (lines : list text) (G : list (list text))
      (st : list text * list text) :
  grouped G st -> cut_state G st ->
  exists G',
    grouped G' (fold_left step lines st)
    /\ cut_state G' (fold_left step lines st)
    /\ held G' (fold_left step lines st)
       = held G st ++ filter nonempty (map strip lines).
Proof.
  revert G st. induction lines as [|line lines IH]; intros G st Hg Hc.
  - exists G. simpl. rewrite app_nil_r. auto.
  - destruct (cut_step line Hg Hc) as (G1 & Hg1 & Hc1 & E1).
    destruct (IH G1 _ Hg1 Hc1) as (G2 & Hg2 & Hc2 & E2).
    exists G2. cbn [fold_left]. split; [assumption|]. split; [assumption|].
    rewrite E2, E1, <- app_assoc. f_equal.
    cbn [map filter]. destruct (nonempty (strip line)); reflexivity.
Qed.

(** X6. Blocks begin at headings: the blocks are the stripped non-blank
    lines cut into groups, each joined with single spaces, such that a
    heading line is always the first line of its group and every group but
    the first begins with a heading line. *)
Theorem X6_blocks_cut_at_headings (t : text) :
  exists G,
    break_into_blocks t = map (join [SP]) G
    /\ List.concat G = stripped_lines t
    /\ cut_at_headings G.
Proof.
  unfold break_into_blocks, stripped_lines.
  assert (H0 : grouped [] ([], [])).
  { unfold grouped. simpl. auto. }
  assert (C0 : cut_state [] ([], [])) by reflexivity.
  destruct (cut_fold (splitlines t) H0 C0) as (G & HG & HC & E).
  destruct (fold_left step (splitlines t) ([], [])) as [blocks cur].
  unfold held in E. simpl in E. rewrite <- E.
  destruct HG as (Hb & Hg & Hs). simpl in Hb, Hs. subst blocks.
  unfold cut_state in HC. cbn [snd] in HC.
  destruct cur as [|x cur].
  - exists G. rewrite app_nil_r. subst G. simpl. auto.
  - exists (G ++ [x :: cur]). apply Forall_app in Hs. destruct Hs as [_ Hc].
    split; [|split].
    + rewrite map_app. f_equal. cbn [map]. f_equal. unfold close_block.
      apply solid_strip, solid_join; [discriminate | assumption].
    + rewrite concat_app. cbn [List.concat]. rewrite app_nil_r. reflexivity.
    + assumption.
Qed.

(** *** A block is one line *)

Lemma join_forallb (p : char -> bool) (sep : text) (g : list text) :
  forallb p sep = true -> Forall (fun x => forallb p x = true) g ->
  forallb p (join sep g) = true.
Proof.
  intros Hsep H. induction H as [|x g Hx _ IH]; [reflexivity|].
  destruct g as [|y g]; [assumption|].
  rewrite join_cons by discriminate.
  rewrite !forallb_app, Hx, Hsep, IH. reflexivity.
Qed.

Lemma stripped_lines_one_line (t : text) :
  Forall (fun x => forallb (fun c => negb (is_linebreak c)) x = true)
         (stripped_lines t).
Proof.
  apply Forall_forall. intros x Hx. unfold stripped_lines in Hx.
  apply filter_In in Hx. destruct Hx as [Hx _].
  apply in_map_iff in Hx. destruct Hx as (line & <- & Hl).
  apply strip_forallb.
  apply (@splitlines_from_no_linebreak t [] false eq_refl line Hl).
Qed.

Lemma splitlines_from_one_line (s cur : text) :
  forallb (fun c => negb (is_linebreak c)) s = true ->
  splitlines_from false cur s
  = match cur ++ s with [] => [] | _ :: _ => [cur ++ s] end.
Proof.
  revert cur. induction s as [|c s IH]; intros cur H.
  - simpl. rewrite app_nil_r. reflexivity.
  - cbn [forallb] in H. apply andb_true_iff in H. destruct H as [Hc Hs].
    cbn [splitlines_from andb].
    destruct (is_linebreak c); [discriminate|].
    rewrite IH by assumption. rewrite <- app_assoc. reflexivity.
Qed.

(** X20. A block is one line and is stable: no block holds a line
    boundary, and segmenting a block again gives back that block alone,
    whether or not it begins like a heading. *)
Theorem X20_block_is_one_stable_line (t : text) (block : text) :
  In block (break_into_blocks t) ->
  forallb (fun c => negb (is_linebreak c)) block = true
  /\ break_into_blocks block = [block].
Proof.
  intro Hin.
  assert (Hsolid : solid block).
  { destruct (blocks_are_groups t) as (G & Hb & Hg & Hc).
    rewrite Hb in Hin. apply in_map_iff in Hin.
    destruct Hin as (g & <- & Hin). apply solid_join.
    - rewrite Forall_forall in Hg. apply Hg. assumption.
    - apply (@Forall_concat_group _ solid G g); [|assumption].
      rewrite Hc. apply stripped_lines_solid. }
  assert (Hline : forallb (fun c => negb (is_linebreak c)) block = true).
  { destruct (blocks_are_groups t) as (G & Hb & Hg & Hc).
    rewrite Hb in Hin. apply in_map_iff in Hin.
    destruct Hin as (g & <- & Hin). apply join_forallb; [reflexivity|].
    apply (@Forall_concat_group _ _ G g); [|assumption].
    rewrite Hc. apply stripped_lines_one_line. }
  split; [assumption|].
  unfold break_into_blocks, splitlines.
  rewrite splitlines_from_one_line by assumption. cbn [app].
  pose proof (solid_nonempty Hsolid) as Hne.
  pose proof (solid_strip Hsolid) as Hs.
  destruct block as [|c block]; [congruence|].
  cbn [fold_left].
  assert (E : step ([], []) (c :: block) = ([], [c :: block])).
  { assert (Hn : nonempty (strip (c :: block)) = true)
      by (rewrite Hs; reflexivity).
    destruct (is_heading (strip (c :: block))) eqn:Hh.
    - rewrite (step_heading [] [] (c :: block) Hn Hh), Hs. reflexivity.
    - rewrite (step_plain [] [] (c :: block) Hn Hh), Hs. reflexivity. }
  rewrite E. unfold close_block. cbn [join app]. rewrite Hs. reflexivity.
Qed.

Lemma X20_block_is_one_stable_line_witness :
  break_into_blocks (u "Purpose stated here") = [u "Purpose stated here"].
Proof.
  apply (@X20_block_is_one_stable_line
           (u "   Purpose " ++ [9; LF; LF] ++ u "  stated here  ")
           (u "Purpose stated here")).
  now left.
Defined.

End SegmenterMore.

(** * Further properties of the aggregator *)

Module AggregatorMore.
Import Py Aggregator Reports Runs AggregatorFacts AggregatorSpec.

Open Scope string_scope.

Lemma is_ok_true (A : Type) (r : result A) :
  is_ok r = true <-> exists a, r = Ok a.
Proof.
  destruct r; simpl; split; eauto; try discriminate.
  intros (a & H). discriminate.
Qed.

(** X7. When [compile_summary] raises: it returns a summary exactly for
    the well-formed evaluations, those where every block has a block id and
    an evaluation that can be iterated, every item has an id and a status,
    and every item whose status is not "Missing" names a checklist id; on
    any other input it raises. *)
Theorem X7_returns_iff_well_formed (checklist : list checklist_item)
        (all_block_results : list value) :
  (exists out, compile_summary checklist all_block_results = Ok out)
  <-> well_formed checklist all_block_results = true.
Proof.
  rewrite <- compile_summary_ok. symmetry. apply is_ok_true.
Qed.

(** *** Repeated ids *)

Lemma distinct_ids_length (cl : list checklist_item) :
  (List.length (distinct_ids cl) <= List.length cl)%nat.
Proof.
  rewrite <- (length_map id cl). apply NoDup_incl_length.
  - apply distinct_ids_nodup.
  - intros k Hk. apply distinct_ids_in. assumption.
Qed.

Lemma output_ids (cl : list checklist_item) (rs : list value)
      (out : list item_summary) :
  compile_summary cl rs = Ok out ->
  map Checklist_Item_ID out = distinct_ids cl.
Proof.
  intro H. apply compile_summary_spec in H. subst out.
  rewrite map_map. rewrite <- (map_id (distinct_ids cl)) at 2.
  apply map_ext. intro k. apply summary_of_id.
Qed.

(** X8. Repeated ids: the summaries are keyed by id, so the output has one
    summary per distinct checklist id, at the place of the first occurrence
    of the id; its ids are pairwise distinct, they are the ids of the
    checklist, and there are at most as many summaries as checklist
    items. *)
Theorem X8_one_summary_per_distinct_id (checklist : list checklist_item)
        (all_block_results : list value) (out : list item_summary) :
  compile_summary checklist all_block_results = Ok out ->
  map Checklist_Item_ID out = distinct_ids checklist
  /\ NoDup (map Checklist_Item_ID out)
  /\ (forall k, In k (map Checklist_Item_ID out) <-> In k (map id checklist))
  /\ (List.length out <= List.length checklist)%nat.
Proof.
  intro H. pose proof (@output_ids _ _ _ H) as E.
  split; [assumption|]. rewrite E. split; [apply distinct_ids_nodup|].
  split; [intro k; apply distinct_ids_in|].
  rewrite <- (length_map Checklist_Item_ID out), E.
  apply distinct_ids_length.
Qed.

Lemma X8_one_summary_per_distinct_id_witness :
  exists out,
    compile_summary [ {| id := "4.2"; text := "a" |};
                      {| id := "4.1"; text := "b" |};
                      {| id := "4.2"; text := "c" |};
                      {| id := "4.3"; text := "d" |} ]
                    Examples.two_blocks = Ok out
    /\ map Checklist_Item_ID out = ["4.2"; "4.1"; "4.3"].
Proof.
  destruct (compile_summary [ {| id := "4.2"; text := "a" |};
                              {| id := "4.1"; text := "b" |};
                              {| id := "4.2"; text := "c" |};
                              {| id := "4.3"; text := "d" |} ]
                            Examples.two_blocks) as [out|] eqn:E;
    [|vm_compute in E; discriminate E].
  exists out. split; [reflexivity|].
  apply (@X8_one_summary_per_distinct_id _ _ _ E).
Defined.

(** X9. The texts of the checklist items play no part: two checklists with
    the same ids in the same order get the same summaries. *)
Theorem X9_only_ids_matter (checklist checklist' : list checklist_item)
        (all_block_results : list value) :
  map id checklist = map id checklist' ->
  compile_summary checklist all_block_results
  = compile_summary checklist' all_block_results.
Proof.
  intro H. unfold compile_summary.
  rewrite !init_summary_spec. unfold distinct_ids. rewrite H. reflexivity.
Qed.

Lemma X9_only_ids_matter_witness :
  compile_summary section_4_checklist Examples.two_blocks
  = compile_summary [ {| id := "4.1"; text := "" |};
                      {| id := "4.2"; text := "" |};
                      {| id := "4.3"; text := "" |};
                      {| id := "4.4"; text := "" |} ] Examples.two_blocks.
Proof. apply X9_only_ids_matter. reflexivity. Defined.

(** *** The final status *)

(** X10. The final status of every summary is one of "Explicitly
    Mentioned", "Partially Mentioned" and "Missing", whatever statuses the
    block evaluations carry. *)
Theorem X10_final_status_values (checklist : list checklist_item)
        (all_block_results : list value) (out : list item_summary)
        (s : item_summary) :
  compile_summary checklist all_block_results = Ok out -> In s out ->
  Final_Status s = "Explicitly Mentioned"
  \/ Final_Status s = "Partially Mentioned"
  \/ Final_Status s = "Missing".
Proof.
  intros H Hin. destruct (@in_output _ _ _ _ H Hin) as (k & _ & ->).
  rewrite summary_of_final.
  destruct (mem_str "Explicitly Mentioned" _); [auto|].
  destruct (mem_str "Partially Mentioned" _); auto.
Qed.

Lemma X10_final_status_values_witness :
  let s := summary_of "4.3"
             [ {| Block_ID := VStr "BLOCK1"; Status := VStr "Fully Mentioned";
                  Justification := VStr "" |} ] in
  Final_Status s = "Explicitly Mentioned"
  \/ Final_Status s = "Partially Mentioned"
  \/ Final_Status s = "Missing".
Proof.
  cbv zeta.
  apply (@X10_final_status_values section_4_checklist
           [Examples.evaluation "BLOCK1"
              [Examples.entry "4.3" "Fully Mentioned" None]]
           _ _ eq_refl).
  simpl. auto.
Defined.

(** *** The order of the blocks *)

Lemma Forall2_map_same (A B : Type) (R : B -> B -> Prop) (f g : A -> B)
      (l : list A) :
  (forall x, In x l -> R (f x) (g x)) -> Forall2 R (map f l) (map g l).
Proof.
  induction l as [|x l IH]; intro H; simpl; constructor.
  - apply H. now left.
  - apply IH. intros y Hy. apply H. now right.
Qed.

Lemma mem_str_perm (t : string) (l l' : list value) :
  Permutation l l' -> mem_str t l = mem_str t l'.
Proof.
  intro H. apply eq_true_iff_eq. rewrite !mem_str_in. split; intro Hin.
  - apply (Permutation_in _ H Hin).
  - apply (Permutation_in _ (Permutation_sym H) Hin).
Qed.

Lemma forallb_perm (A : Type) (f : A -> bool) (l l' : list A) :
  Permutation l l' -> forallb f l = forallb f l'.
Proof.
  intro H. apply eq_true_iff_eq. rewrite !forallb_forall. split; intros Hf x Hx.
  - apply Hf. apply (Permutation_in _ (Permutation_sym H) Hx).
  - apply Hf. apply (Permutation_in _ H Hx).
Qed.

(** X11. The order of the blocks is a matter of display only: when the
    block evaluations are given in another order, [compile_summary] returns
    as well, with the same ids and the same final statuses, and the matched
    blocks of each item are the same up to their order. *)
Theorem X11_block_order_irrelevant (checklist : list checklist_item)
        (rs rs' : list value) (out : list item_summary) :
  Permutation rs rs' ->
  compile_summary checklist rs = Ok out ->
  exists out',
    compile_summary checklist rs' = Ok out'
    /\ Forall2 (fun s s' =>
                  Checklist_Item_ID s' = Checklist_Item_ID s
                  /\ Final_Status s' = Final_Status s
                  /\ Permutation (Matched_Blocks s) (Matched_Blocks s'))
               out out'.
Proof.
  intros Hp H.
  assert (Hwf : well_formed checklist rs' = true).
  { unfold well_formed. rewrite <- (forallb_perm _ Hp).
    fold (well_formed checklist rs). rewrite <- compile_summary_ok, H.
    reflexivity. }
  rewrite <- compile_summary_ok in Hwf. apply is_ok_true in Hwf.
  destruct Hwf as (out' & H'). exists out'. split; [assumption|].
  apply compile_summary_spec in H. apply compile_summary_spec in H'.
  subst out out'. apply Forall2_map_same. intros k _.
  assert (Hm : Permutation (matches k rs) (matches k rs'))
    by (apply Permutation_flat_map; assumption).
  rewrite !summary_of_id, !summary_of_final, !summary_of_matched.
  repeat split; try assumption.
  rewrite (mem_str_perm "Explicitly Mentioned" (Permutation_map Status Hm)).
  rewrite (mem_str_perm "Partially Mentioned" (Permutation_map Status Hm)).
  reflexivity.
Qed.

Lemma X11_block_order_irrelevant_witness :
  exists out',
    compile_summary section_4_checklist (rev Examples.two_blocks) = Ok out'
    /\ map Final_Status out'
       = ["Explicitly Mentioned"; "Missing"; "Partially Mentioned"; "Missing"].
Proof.
  destruct (compile_summary section_4_checklist Examples.two_blocks)
    as [out|] eqn:E; [|vm_compute in E; discriminate E].
  destruct (@X11_block_order_irrelevant section_4_checklist
              Examples.two_blocks (rev Examples.two_blocks) out
              (Permutation_rev _) E) as (out' & E' & _).
  exists out'. split; [assumption|].
  vm_compute in E'. injection E' as <-. reflexivity.
Defined.

(** *** More blocks *)

Lemma mem_str_app (t : string) (l l' : list value) :
  mem_str t (l ++ l') = mem_str t l || mem_str t l'.
Proof. unfold mem_str. apply existsb_app. Qed.

Lemma rank_final (k : string) (a b : list matched_block) :
  (rank (Final_Status (summary_of k a))
   <= rank (Final_Status (summary_of k (a ++ b))))%nat.
Proof.
  rewrite !summary_of_final, map_app, !mem_str_app.
  destruct (mem_str "Explicitly Mentioned" (map Status a));
    destruct (mem_str "Explicitly Mentioned" (map Status b));
    destruct (mem_str "Partially Mentioned" (map Status a));
    destruct (mem_str "Partially Mentioned" (map Status b));
    vm_compute; lia.
Qed.

(** X12. More blocks never lower a status: when [compile_summary] returns
    for a sequence of block evaluations it returns for every prefix of it,
    and against the prefix each item keeps its matched blocks, gets the new
    ones after them, and has a final status at least as high in the order
    "Missing", "Partially Mentioned", "Explicitly Mentioned". *)
Theorem X12_more_blocks_never_lower (checklist : list checklist_item)
        (rs more : list value) (out' : list item_summary) :
  compile_summary checklist (rs ++ more) = Ok out' ->
  exists out,
    compile_summary checklist rs = Ok out
    /\ Forall2 (fun s s' =>
                  Checklist_Item_ID s' = Checklist_Item_ID s
                  /\ (exists added,
                         Matched_Blocks s' = (Matched_Blocks s ++ added)%list)
                  /\ (rank (Final_Status s) <= rank (Final_Status s'))%nat)
               out out'.
Proof.
  intro H'.
  assert (Hwf : well_formed checklist rs = true).
  { assert (Hall : well_formed checklist (rs ++ more) = true)
      by (rewrite <- compile_summary_ok, H'; reflexivity).
    unfold well_formed in *. rewrite forallb_app in Hall.
    apply andb_true_iff in Hall. apply Hall. }
  rewrite <- compile_summary_ok in Hwf. apply is_ok_true in Hwf.
  destruct Hwf as (out & H). exists out. split; [assumption|].
  apply compile_summary_spec in H. apply compile_summary_spec in H'.
  subst out out'. apply Forall2_map_same. intros k _.
  unfold matches. rewrite flat_map_app. fold (matches k rs) (matches k more).
  rewrite !summary_of_id, !summary_of_matched.
  split; [reflexivity|]. split; [eauto | apply rank_final].
Qed.

Lemma X12_more_blocks_never_lower_witness :
  exists out,
    compile_summary section_4_checklist (firstn 1 Examples.two_blocks) = Ok out
    /\ map Final_Status out
       = ["Partially Mentioned"; "Missing"; "Missing"; "Missing"].
Proof.
  destruct (compile_summary section_4_checklist Examples.two_blocks)
    as [out'|] eqn:E'; [|vm_compute in E'; discriminate E'].
  destruct (@X12_more_blocks_never_lower section_4_checklist
              (firstn 1 Examples.two_blocks) (skipn 1 Examples.two_blocks)
              out' E') as (out & E & _).
  exists out. split; [assumption|].
  vm_compute in E. injection E as <-. reflexivity.
Defined.

(** *** Items reported as missing *)

(** X18. Reporting "Missing" is the same as not reporting: an item whose
    status is "Missing" can be left out of a block's evaluation list
    without any change to what [compile_summary] returns or raises,
    whatever its id. *)
Theorem X18_missing_item_can_be_omitted (checklist : list checklist_item)
        (pre post : list value) (d : list (string * value))
        (l1 l2 : list value) (item item_id : value) :
  dict_get d "Checklist Evaluation" = Some (VList (l1 ++ item :: l2)) ->
  getitem item "Checklist Item ID" = Ok item_id ->
  getitem item "Status" = Ok (VStr "Missing") ->
  compile_summary checklist (pre ++ VDict d :: post)
  = compile_summary checklist
      (pre ++ VDict (dict_set d "Checklist Evaluation" (VList (l1 ++ l2)))
           :: post).
Proof.
  intros Hd Ei Es. apply compile_summary_congr. intro s.
  apply (@merge_block_drop_missing s d l1 l2 item item_id Hd Ei Es).
Qed.

Lemma X18_missing_item_witness :
  compile_summary section_4_checklist
    [Examples.evaluation "BLOCK1"
       [Examples.entry "4.2" "Missing" None;
        Examples.entry "4.1" "Explicitly Mentioned" (Some "states X")]]
  = compile_summary section_4_checklist
      [Examples.evaluation "BLOCK1"
         [Examples.entry "4.1" "Explicitly Mentioned" (Some "states X")]].
Proof.
  apply (@X18_missing_item_can_be_omitted section_4_checklist [] []
           [("Checklist Evaluation",
             VList [Examples.entry "4.2" "Missing" None;
                    Examples.entry "4.1" "Explicitly Mentioned" (Some "states X")]);
            ("block_id", VStr "BLOCK1")]
           []
           [Examples.entry "4.1" "Explicitly Mentioned" (Some "states X")]
           (Examples.entry "4.2" "Missing" None) (VStr "4.2"));
    reflexivity.
Defined.

(** *** The exceptions raised *)

Lemma merge_item_raises (block_id : value) (s : summary_dict) (item : value)
      (e : exn) :
  merge_item block_id s item = Raise e -> e = KeyError \/ e = TypeError.
Proof.
  unfold merge_item, bind.
  destruct (getitem item "Checklist Item ID") as [i|e1] eqn:Ei.
  - destruct (getitem item "Status") as [st|e2] eqn:Es.
    + destruct (negb (eq_str st "Missing")); [|discriminate].
      destruct (@get_of_dict item i (VStr "") _ Ei) as (j & ->).
      unfold record_match. destruct i as [| | |k| |];
        try (intro H; injection H as <-; auto).
      destruct (dict_get s k); [discriminate|].
      intro H; injection H as <-. auto.
    + intro H. injection H as <-. unfold getitem in Es.
      destruct item; try (injection Es as <-; auto).
      destruct (dict_get l "Status"); [discriminate|].
      injection Es as <-. auto.
  - intro H. injection H as <-. unfold getitem in Ei.
    destruct item; try (injection Ei as <-; auto).
    destruct (dict_get l "Checklist Item ID"); [discriminate|].
    injection Ei as <-. auto.
Qed.

Lemma getitem_raises (obj : value) (key : string) (e : exn) :
  getitem obj key = Raise e -> e = KeyError \/ e = TypeError.
Proof.
  unfold getitem. destruct obj; try (intro H; injection H as <-; auto).
  destruct (dict_get l key); [discriminate|].
  intro H; injection H as <-. auto.
Qed.

Lemma foldM_raises (A B : Type) (f : A -> B -> result A) (l : list B) (a : A)
      (e : exn) (P : exn -> Prop) :
  (forall a x e, f a x = Raise e -> P e) ->
  foldM f l a = Raise e -> P e.
Proof.
  intro Hf. revert a. induction l as [|x l IH]; simpl; intro a; [discriminate|].
  unfold bind. destruct (f a x) as [a'|e'] eqn:E.
  - apply IH.
  - intro H. injection H as <-. apply (Hf _ _ _ E).
Qed.

Lemma merge_block_raises (s : summary_dict) (block : value) (e : exn) :
  merge_block s block = Raise e -> e = KeyError \/ e = TypeError.
Proof.
  unfold merge_block, bind.
  destruct (getitem block "block_id") as [bid|e1] eqn:E1;
    [|intro H; injection H as <-; apply (getitem_raises _ _ E1)].
  destruct (getitem block "Checklist Evaluation") as [ev|e2] eqn:E2;
    [|intro H; injection H as <-; apply (getitem_raises _ _ E2)].
  destruct (iter ev) as [items|e3] eqn:E3.
  - apply (@foldM_raises _ _ (merge_item bid) items s e
             (fun e => e = KeyError \/ e = TypeError)).
    intros a x e'. apply merge_item_raises.
  - intro H. injection H as <-. unfold iter in E3.
    destruct ev; try discriminate; injection E3 as <-; auto.
Qed.

(** X19. The exceptions of [compile_summary]: when it raises, it raises
    [KeyError] (a key that a block or an item lacks, or an id that is not in
    the checklist) or [TypeError] (a value that cannot be subscripted,
    iterated or hashed); looking up the justification never raises. *)
Theorem X19_exceptions_raised (checklist : list checklist_item)
        (all_block_results : list value) (e : exn) :
  compile_summary checklist all_block_results = Raise e ->
  e = KeyError \/ e = TypeError.
Proof.
  unfold compile_summary, bind.
  destruct (foldM merge_block all_block_results (init_summary checklist))
    as [s|e'] eqn:E; [discriminate|].
  intro H. injection H as <-.
  apply (@foldM_raises _ _ merge_block all_block_results
           (init_summary checklist) e' (fun e => e = KeyError \/ e = TypeError));
    [|assumption].
  intros a x e0. apply merge_block_raises.
Qed.

Lemma X19_exceptions_raised_witness :
  TypeError = KeyError \/ TypeError = TypeError.
Proof.
  apply (@X19_exceptions_raised section_4_checklist
           [VDict [("block_id", VStr "BLOCK1");
                   ("Checklist Evaluation", VNum "7")]]).
  reflexivity.
Defined.

End AggregatorMore.

(** * Further properties of the block loop *)

Module AppMore.
Import Py Aggregator App Reports Runs AggregatorFacts AggregatorSpec
       AggregatorMore.

Open Scope string_scope.

(** *** Block labels *)

Lemma append_inj (p a b : string) : p ++ a = p ++ b -> a = b.
Proof.
  induction p as [|c p IH]; simpl; intro H; [assumption|].
  injection H as H. apply IH. assumption.
Qed.

(** X13. Block labels identify blocks: two positions get the same label
    only if they are the same position. *)
Theorem X13_block_label_injective (i j : nat) :
  block_label i = block_label j -> i = j.
Proof.
  unfold block_label. intro H. apply append_inj in H.
  assert (E : Some (Nat.to_uint i) = Some (Nat.to_uint j)).
  { rewrite <- (NilEmpty.usu (Nat.to_uint i)), <- (NilEmpty.usu (Nat.to_uint j)).
    rewrite H. reflexivity. }
  injection E as E.
  rewrite <- (DecimalNat.Unsigned.of_to i), <- (DecimalNat.Unsigned.of_to j).
  rewrite E. reflexivity.
Qed.

Lemma X13_block_label_injective_witness : 12%nat = 12%nat.
Proof. apply X13_block_label_injective. reflexivity. Defined.

(** *** What the loop aggregates *)

Lemma block_loop_labelled (responses : list (option value)) (i : nat)
      (all_block_results : list value) (errors : list nat) :
  fst (block_loop i responses (all_block_results, errors))
  = (all_block_results ++ labelled i responses)%list.
Proof.
  revert i all_block_results errors.
  induction responses as [|r rs IH]; intros i all errors.
  - simpl. rewrite app_nil_r. reflexivity.
  - cbn [block_loop labelled]. destruct r as [parsed|].
    + destruct parsed; cbn [try_block setitem]; rewrite IH;
        try reflexivity.
      rewrite <- app_assoc. reflexivity.
    + cbn [try_block]. apply IH.
Qed.

Lemma in_labelled (responses : list (option value)) (i : nat) (b : value) :
  In b (labelled i responses)
  <-> exists n d,
      nth_error responses n = Some (Some (VDict d))
      /\ b = VDict (dict_set d "block_id" (VStr (block_label (i + n)))).
Proof.
  revert i. induction responses as [|r rs IH]; intro i.
  - simpl. split; [intros [] | intros ([|n] & d & H & _); discriminate].
  - assert (Hrest :
      (exists n d,
          nth_error rs n = Some (Some (VDict d))
          /\ b = VDict (dict_set d "block_id" (VStr (block_label (S i + n)))))
      -> exists n d,
          nth_error (r :: rs) n = Some (Some (VDict d))
          /\ b = VDict (dict_set d "block_id" (VStr (block_label (i + n))))).
    { intros (n & d & Hn & Hb). exists (S n), d.
      rewrite <- plus_n_Sm. auto. }
    assert (Hback :
      forall n d,
        nth_error (r :: rs) (S n) = Some (Some (VDict d)) ->
        b = VDict (dict_set d "block_id" (VStr (block_label (i + S n)))) ->
        In b (labelled (S i) rs)).
    { intros n d Hn Hb. apply IH. exists n, d.
      rewrite <- plus_n_Sm in Hb. auto. }
    cbn [labelled]. destruct r as [[| | | | |d0]|];
      try (split; [intro H; apply Hrest, IH, H
                  | intros ([|n] & d & Hn & Hb);
                    [discriminate Hn | apply (Hback n d Hn Hb)]]).
    split.
    + intros [<- | H].
      * exists 0%nat, d0. rewrite <- plus_n_O. auto.
      * apply Hrest, IH, H.
    + intros ([|n] & d & Hn & Hb).
      * injection Hn as <-. rewrite <- plus_n_O in Hb. now left.
      * right. apply (Hback n d Hn Hb).
Qed.

(** X14. What the loop aggregates: a response is kept in
    [all_block_results] exactly when it is a JSON object, and it is kept
    under the label of its own position in the document, counted from 1:
    responses left out do not shift the labels of the ones that follow. *)
Theorem X14_aggregated_blocks (responses : list (option value)) (b : value) :
  In b (fst (block_loop 1 responses ([], [])))
  <-> exists n d,
      nth_error responses n = Some (Some (VDict d))
      /\ b = VDict (dict_set d "block_id" (VStr (block_label (S n)))).
Proof.
  rewrite block_loop_labelled. cbn [app]. apply in_labelled.
Qed.

(** *** Runs without a failure *)

Lemma show_item_good (ids : list string) (item : value) :
  good_item ids item = true -> show_item item = Ok tt.
Proof.
  unfold good_item, show_item, getitem, bind.
  destruct item as [| | | | |di]; try discriminate.
  destruct (dict_get di "Checklist Item ID") as [[| | |k| |]|];
    try discriminate.
  destruct (dict_get di "Status"); [|discriminate].
  intros _. destruct (dict_get di "Justification"); reflexivity.
Qed.

Lemma show_items_good (ids : list string) (items : list value) :
  forallb (good_item ids) items = true ->
  foldM (fun _ item => show_item item) items tt = Ok tt.
Proof.
  induction items as [|item items IH]; simpl; intro H; [reflexivity|].
  apply andb_true_iff in H. destruct H as [Hi Hs].
  rewrite (show_item_good _ _ Hi). simpl. apply IH. assumption.
Qed.

Lemma item_ok_good (ids : list string) (item : value) :
  good_item ids item = true -> item_ok ids item = true.
Proof.
  unfold good_item, item_ok, getitem.
  destruct item as [| | | | |di]; try discriminate.
  destruct (dict_get di "Checklist Item ID") as [[| | |k| |]|];
    try discriminate.
  destruct (dict_get di "Status"); [|discriminate].
  intros ->. apply orb_true_r.
Qed.

Lemma good_response_step (ids : list string) (r : option value) (i : nat)
      (all : list value) :
  good_response ids r = true ->
  exists b,
    try_block i r all = ((all ++ [b])%list, Ok tt)
    /\ labelled i [r] = [b] /\ block_ok ids b = true.
Proof.
  unfold good_response. destruct r as [[| | | | |d]|]; try discriminate.
  destruct (dict_get d "Checklist Evaluation") as [[| | | |items|]|] eqn:Ed;
    try discriminate.
  intro H. eexists. cbn [try_block setitem labelled]. repeat split.
  - f_equal. unfold show_block, getitem.
    rewrite dict_get_set_other by discriminate. rewrite Ed. simpl.
    apply (show_items_good ids). assumption.
  - unfold block_ok, getitem. rewrite dict_get_set_same.
    rewrite dict_get_set_other by discriminate. rewrite Ed. simpl.
    rewrite forallb_forall in *. intros item Hi.
    apply item_ok_good, H, Hi.
Qed.

Lemma good_responses_loop (ids : list string) (responses : list (option value))
      (i : nat) (all : list value) (errors : list nat) :
  forallb (good_response ids) responses = true ->
  block_loop i responses (all, errors)
  = ((all ++ labelled i responses)%list, errors)
  /\ forallb (block_ok ids) (labelled i responses) = true.
Proof.
  revert i all. induction responses as [|r rs IH]; intros i all H.
  - simpl. rewrite app_nil_r. auto.
  - cbn [forallb] in H. apply andb_true_iff in H. destruct H as [Hr Hrs].
    destruct (good_response_step ids r i all Hr) as (b & Et & El & Hb).
    cbn [block_loop]. rewrite Et.
    destruct (IH (S i) (all ++ [b])%list Hrs) as [E Hok].
    rewrite E, <- app_assoc.
    change (labelled i (r :: rs)) with (labelled i ([r] ++ rs)).
    assert (Ela : labelled i ([r] ++ rs) = (b :: labelled (S i) rs)).
    { cbn [app labelled] in *. destruct r as [[| | | | |d]|];
        try discriminate El. injection El as <-. reflexivity. }
    rewrite Ela. split; [reflexivity|].
    cbn [forallb]. rewrite Hb, Hok. reflexivity.
Qed.

(** X15. A run without failure: when every response has the format the
    prompt asks for (an object whose "Checklist Evaluation" is a list of
    objects with a status and a string id) and names only ids of the
    checklist, no block is reported as failed and the run returns the
    summaries of the four checklist items, in order. *)
Theorem X15_good_responses_are_summarised (responses : list (option value)) :
  forallb (good_response (map id section_4_checklist)) responses = true ->
  exists out,
    run_compliance_check responses = (Ok out, [])
    /\ map Checklist_Item_ID out = ["4.1"; "4.2"; "4.3"; "4.4"].
Proof.
  intro H. unfold run_compliance_check.
  destruct (good_responses_loop _ responses 1 [] [] H) as [E Hok].
  rewrite E. cbn [app].
  assert (Hwf : well_formed section_4_checklist (labelled 1 responses) = true)
    by exact Hok.
  rewrite <- compile_summary_ok in Hwf. apply is_ok_true in Hwf.
  destruct Hwf as (out & Eo). exists out. rewrite Eo. split; [reflexivity|].
  rewrite (@output_ids _ _ _ Eo). reflexivity.
Qed.

Lemma X15_good_responses_witness :
  exists out,
    run_compliance_check
      [ Some (Examples.response
                [Examples.entry "4.1" "Partially Mentioned" (Some "in part")]);
        Some (Examples.response
                [Examples.entry "4.1" "Explicitly Mentioned" (Some "states X");
                 Examples.entry "4.2" "Missing" None]) ]
    = (Ok out, [])
    /\ map Checklist_Item_ID out = ["4.1"; "4.2"; "4.3"; "4.4"].
Proof. apply X15_good_responses_are_summarised. reflexivity. Defined.

(** *** Runs that report no failure *)

Lemma errors_grow (responses : list (option value)) (i : nat)
      (all : list value) (errors : list nat) :
  exists extra,
    snd (block_loop i responses (all, errors)) = (errors ++ extra)%list.
Proof.
  revert i all errors. induction responses as [|r rs IH]; intros i all errors.
  - exists []. simpl. rewrite app_nil_r. reflexivity.
  - cbn [block_loop]. destruct (try_block i r all) as [all' [u|e]].
    + apply IH.
    + destruct (IH (S i) all' (errors ++ [i])%list) as (extra & E).
      exists (i :: extra). rewrite E, <- app_assoc. reflexivity.
Qed.

Lemma no_error_shown (responses : list (option value)) (i : nat)
      (all : list value) (errors : list nat) (b : value) :
  snd (block_loop i responses (all, errors)) = errors ->
  In b (labelled i responses) -> show_block b = Ok tt.
Proof.
  revert i all. induction responses as [|r rs IH]; intros i all H Hin;
    [destruct Hin|].
  cbn [block_loop] in H.
  destruct (try_block i r all) as [all' [u|e]] eqn:Et.
  - unfold try_block in Et. destruct r as [parsed|]; [|discriminate Et].
    destruct parsed as [| | | | |d]; cbn [setitem] in Et;
      try discriminate Et.
    injection Et as _ Es. cbn [labelled] in Hin.
    destruct Hin as [<- | Hin].
    + rewrite Es. destruct u. reflexivity.
    + apply (IH (S i) _ H Hin).
  - exfalso. destruct (errors_grow rs (S i) all' (errors ++ [i])%list)
      as (extra & E).
    rewrite E in H. apply (f_equal (@List.length nat)) in H.
    rewrite !length_app in H. simpl in H. lia.
Qed.

Lemma foldM_shown (items : list value) (item : value) :
  foldM (fun _ x => show_item x) items tt = Ok tt -> In item items ->
  show_item item = Ok tt.
Proof.
  induction items as [|x items IH]; simpl; intros H Hin; [destruct Hin|].
  unfold bind in H. destruct (show_item x) as [[]|] eqn:Ex; [|discriminate].
  destruct Hin as [<- | Hin]; [assumption | apply IH; assumption].
Qed.

Lemma show_item_fields (item : value) :
  show_item item = Ok tt ->
  exists item_id status,
    getitem item "Checklist Item ID" = Ok item_id
    /\ getitem item "Status" = Ok status.
Proof.
  unfold show_item, bind.
  destruct (getitem item "Checklist Item ID") as [item_id|]; [|discriminate].
  destruct (getitem item "Status") as [status|]; [|discriminate].
  eauto.
Qed.

Lemma forallb_false_witness (A : Type) (f : A -> bool) (l : list A) :
  forallb f l = false -> exists x, In x l /\ f x = false.
Proof.
  induction l as [|x l IH]; simpl; [discriminate|].
  destruct (f x) eqn:E; simpl.
  - intro H. destruct (IH H) as (y & Hy & Ey). eauto.
  - intros _. eauto.
Qed.

(** X16. A run that reported no failed block raises only for an id: when
    no block is reported and [compile_summary] raises all the same, some
    aggregated block has an item with an id and a status, the status is not
    "Missing", and the id is not an id of the checklist. *)
Theorem X16_unreported_failure_is_an_unknown_id
        (responses : list (option value)) (e : exn) :
  snd (run_compliance_check responses) = [] ->
  fst (run_compliance_check responses) = Raise e ->
  exists block item item_id status,
    In block (fst (block_loop 1 responses ([], [])))
    /\ In item (entries_of block)
    /\ getitem item "Checklist Item ID" = Ok item_id
    /\ getitem item "Status" = Ok status
    /\ status <> VStr "Missing"
    /\ forall k, item_id = VStr k -> ~ In k (map id section_4_checklist).
Proof.
  unfold run_compliance_check.
  pose proof (block_loop_labelled responses 1 [] []) as El.
  pose proof (@no_error_shown responses 1 [] []) as Hshown.
  destruct (block_loop 1 responses ([], [])) as [all errors].
  cbn [fst snd app] in *. intros -> Hraise. subst all.
  assert (Hwf : well_formed section_4_checklist (labelled 1 responses) = false).
  { rewrite <- compile_summary_ok, Hraise. reflexivity. }
  apply forallb_false_witness in Hwf. destruct Hwf as (block & Hb & Hbad).
  specialize (Hshown block eq_refl Hb).
  pose proof (proj1 (in_labelled responses 1 block) Hb) as (n & d & _ & Eb).
  unfold show_block, bind in Hshown. unfold block_ok in Hbad.
  assert (Ebid : exists v, getitem block "block_id" = Ok v).
  { subst block. unfold getitem. rewrite dict_get_set_same. eauto. }
  destruct Ebid as (v & Ebid). rewrite Ebid in Hbad.
  destruct (getitem block "Checklist Evaluation") as [ev|] eqn:Eev;
    [|discriminate].
  destruct (iter ev) as [items|] eqn:Eit; [|discriminate].
  apply forallb_false_witness in Hbad. destruct Hbad as (item & Hi & Hitem).
  pose proof (foldM_shown _ _ Hshown Hi) as Hs.
  apply show_item_fields in Hs. destruct Hs as (item_id & status & Ei & Es).
  exists block, item, item_id, status.
  unfold item_ok in Hitem. rewrite Ei, Es in Hitem.
  apply orb_false_iff in Hitem. destruct Hitem as [Hm Hk].
  repeat split; try assumption.
  - unfold entries_of. rewrite Eev, Eit. assumption.
  - intro E. apply eq_str_true in E. congruence.
  - intros k -> Hin. apply existsb_eqb_in in Hin. congruence.
Qed.

Lemma X16_unreported_failure_witness :
  exists item_id status,
    getitem (Examples.entry "9.9" "Explicitly Mentioned" None)
            "Checklist Item ID" = Ok item_id
    /\ getitem (Examples.entry "9.9" "Explicitly Mentioned" None) "Status"
       = Ok status
    /\ status <> VStr "Missing".
Proof.
  destruct (@X16_unreported_failure_is_an_unknown_id
              [Some (Examples.response
                       [Examples.entry "9.9" "Explicitly Mentioned" None])]
              KeyError eq_refl eq_refl)
    as (block & item & item_id & status & Hb & Hi & Ei & Es & Hne & _).
  exists item_id, status.
  destruct Hb as [<- | []]. destruct Hi as [<- | []]. auto.
Defined.

(** *** Responses left out *)

Lemma labelled_app (pre post : list (option value)) (i : nat) :
  labelled i (pre ++ post)
  = (labelled i pre ++ labelled (i + List.length pre) post)%list.
Proof.
  revert i. induction pre as [|r pre IH]; intro i.
  - simpl. rewrite <- plus_n_O. reflexivity.
  - cbn [app labelled List.length]. rewrite <- plus_n_Sm.
    destruct r as [[| | | | |d]|]; rewrite IH; reflexivity.
Qed.

Lemma labelled_same (responses : list (option value)) (i j : nat) :
  Forall2 same_response (labelled i responses) (labelled j responses).
Proof.
  revert i j. induction responses as [|r rs IH]; intros i j; [constructor|].
  cbn [labelled]. destruct r as [[| | | | |d]|]; try apply IH.
  constructor; [|apply IH]. exists d. eauto.
Qed.

Lemma same_response_entries (b b' : value) :
  same_response b b' -> entries_of b = entries_of b'.
Proof.
  intros (d & v & v' & -> & ->). unfold entries_of, getitem.
  rewrite !dict_get_set_other by discriminate. reflexivity.
Qed.

Lemma same_response_ok (ids : list string) (b b' : value) :
  same_response b b' -> block_ok ids b = block_ok ids b'.
Proof.
  intros (d & v & v' & -> & ->). unfold block_ok, getitem.
  rewrite !dict_get_set_same.
  rewrite !dict_get_set_other by discriminate. reflexivity.
Qed.

Lemma item_match_finding (k : string) (v v' item : value) :
  map finding (item_match k v item) = map finding (item_match k v' item).
Proof.
  unfold item_match.
  destruct (getitem item "Checklist Item ID") as [[| | |k'| |]|];
    try reflexivity.
  destruct (getitem item "Status") as [st|]; [|reflexivity].
  destruct (String.eqb k' k && negb (eq_str st "Missing")); [|reflexivity].
  destruct (get item "Justification" (VStr "")); reflexivity.
Qed.

Lemma map_flat_map (A B C : Type) (f : B -> C) (g : A -> list B)
      (l : list A) :
  map f (flat_map g l) = flat_map (fun x => map f (g x)) l.
Proof.
  induction l as [|x l IH]; simpl; [reflexivity|].
  rewrite map_app, IH. reflexivity.
Qed.

Lemma same_response_findings (k : string) (b b' : value) :
  same_response b b' ->
  map finding (block_matches k b) = map finding (block_matches k b').
Proof.
  intro H. pose proof (same_response_entries H) as Ee.
  destruct H as (d & v & v' & -> & ->). unfold block_matches, getitem.
  rewrite !dict_get_set_same. rewrite Ee, !map_flat_map.
  apply flat_map_ext. intro item. apply item_match_finding.
Qed.

Lemma same_responses (ids : list string) (k : string) (L L' : list value) :
  Forall2 same_response L L' ->
  forallb (block_ok ids) L = forallb (block_ok ids) L'
  /\ map finding (matches k L) = map finding (matches k L').
Proof.
  induction 1 as [|b b' L L' Hb _ [IH1 IH2]]; [auto|].
  cbn [forallb]. unfold matches in *. cbn [flat_map].
  rewrite !map_app, IH1, IH2, (same_response_ok ids Hb),
    (same_response_findings k Hb).
  auto.
Qed.

Lemma statuses_of_findings (ms : list matched_block) :
  map Status ms = map fst (map finding ms).
Proof. rewrite map_map. reflexivity. Qed.

(** X17. A response left out leaves no trace: a response that
    [json.loads] rejects, or that is not a JSON object, changes nothing
    but the labels of the blocks after it.  The run returns a summary with
    it exactly when it does without it, and then every item has the same
    final status and the same matched statuses and justifications, in the
    same order. *)
Theorem X17_response_left_out (pre post : list (option value))
        (r : option value) :
  (forall d, r <> Some (VDict d)) ->
  is_ok (fst (run_compliance_check (pre ++ r :: post)))
  = is_ok (fst (run_compliance_check (pre ++ post)))
  /\ forall out out',
      fst (run_compliance_check (pre ++ r :: post)) = Ok out ->
      fst (run_compliance_check (pre ++ post)) = Ok out' ->
      Forall2 (fun s s' =>
                 Checklist_Item_ID s' = Checklist_Item_ID s
                 /\ Final_Status s' = Final_Status s
                 /\ map finding (Matched_Blocks s')
                    = map finding (Matched_Blocks s))
              out out'.
Proof.
  intro Hr. unfold run_compliance_check.
  pose proof (block_loop_labelled (pre ++ r :: post) 1 [] []) as EA.
  pose proof (block_loop_labelled (pre ++ post) 1 [] []) as EB.
  destruct (block_loop 1 (pre ++ r :: post) ([], [])) as [A errA].
  destruct (block_loop 1 (pre ++ post) ([], [])) as [B errB].
  cbn [fst app] in *. subst A B.
  assert (Hsame : Forall2 same_response (labelled 1 (pre ++ r :: post))
                          (labelled 1 (pre ++ post))).
  { rewrite !labelled_app. apply Forall2_app; [apply labelled_same|].
    assert (E : labelled (1 + List.length pre) (r :: post)
                = labelled (S (1 + List.length pre)) post).
    { cbn [labelled]. destruct r as [[| | | | |d]|]; try reflexivity.
      exfalso. apply (Hr d). reflexivity. }
    rewrite E. apply labelled_same. }
  split.
  - rewrite !compile_summary_ok. unfold well_formed.
    apply (same_responses (map id section_4_checklist) "" Hsame).
  - intros out out' HA HB.
    apply compile_summary_spec in HA. apply compile_summary_spec in HB.
    subst out out'. apply Forall2_map_same. intros k _.
    destruct (same_responses (map id section_4_checklist) k Hsame) as [_ Ef].
    rewrite !summary_of_id, !summary_of_final, !summary_of_matched.
    rewrite !statuses_of_findings, Ef. auto.
Qed.

Lemma X17_response_left_out_witness :
  is_ok (fst (run_compliance_check
                [ Some (Examples.response
                          [Examples.entry "4.1" "Partially Mentioned" None]);
                  Some (VList []);
                  Some (Examples.response
                          [Examples.entry "4.2" "Explicitly Mentioned" None]) ]))
  = true.
Proof.
  refine (eq_trans
            (proj1 (@X17_response_left_out
                      [ Some (Examples.response
                                [Examples.entry "4.1" "Partially Mentioned" None]) ]
                      [ Some (Examples.response
                                [Examples.entry "4.2" "Explicitly Mentioned" None]) ]
                      (Some (VList [])) _)) _).
  - intros d H. discriminate H.
  - reflexivity.
Defined.

(** *** What the loop reports *)

Lemma try_block_outcome (i : nat) (r : option value) (all : list value) :
  snd (try_block i r all) = snd (try_block i r []).
Proof.
  unfold try_block. destruct r as [parsed|]; [|reflexivity].
  destruct (setitem parsed "block_id" (VStr (block_label i))); reflexivity.
Qed.

Lemma in_reported (responses : list (option value)) (i j : nat)
      (all : list value) (errors : list nat) :
  In j (snd (block_loop i responses (all, errors)))
  <-> In j errors
      \/ exists n r,
          nth_error responses n = Some r /\ j = (i + n)%nat
          /\ is_ok (snd (try_block j r [])) = false.
Proof.
  revert i all errors. induction responses as [|r rs IH]; intros i all errors.
  - simpl. split; [auto|]. intros [H | ([|n] & r & H & _)]; auto; discriminate.
  - cbn [block_loop].
    pose proof (try_block_outcome i r all) as Eo.
    destruct (try_block i r all) as [all' outcome]. cbn [snd] in Eo.
    rewrite IH. split.
    + intros [H | (n & r' & Hn & -> & Hf)].
      * destruct outcome as [u|e]; [auto|].
        apply in_app_or in H. destruct H as [H | [<- | []]]; [auto|].
        right. exists 0%nat, r. rewrite <- plus_n_O, <- Eo. auto.
      * right. exists (S n), r'. rewrite <- plus_n_Sm. auto.
    + intros [H | ([|n] & r' & Hn & -> & Hf)].
      * left. destruct outcome; [assumption | apply in_or_app; now left].
      * injection Hn as <-. rewrite <- plus_n_O, <- Eo in Hf.
        destruct outcome as [u|e]; [discriminate|].
        left. apply in_or_app. right. rewrite <- plus_n_O. now left.
      * right. exists n, r'. rewrite <- plus_n_Sm in *. auto.
Qed.

(** X21. What the loop reports: the block at a position (counted from 1)
    is reported as failed exactly when its [try] body raises, that is when
    [json.loads] rejects the response, when the response is not a JSON
    object, or when the expander cannot read the items; in particular a
    response that is not a JSON object is always reported. *)
Theorem X21_reported_blocks (responses : list (option value)) (j : nat) :
  (In j (snd (run_compliance_check responses))
   <-> exists n r,
       nth_error responses n = Some r /\ j = S n
       /\ is_ok (snd (try_block j r [])) = false)
  /\ forall n r,
      nth_error responses n = Some r -> (forall d, r <> Some (VDict d)) ->
      In (S n) (snd (run_compliance_check responses)).
Proof.
  assert (H : forall k,
             In k (snd (run_compliance_check responses))
             <-> exists n r,
                 nth_error responses n = Some r /\ k = S n
                 /\ is_ok (snd (try_block k r [])) = false).
  { intro k. unfold run_compliance_check.
    pose proof (in_reported responses 1 k [] []) as Hr.
    destruct (block_loop 1 responses ([], [])) as [all errors].
    cbn [snd] in *. rewrite Hr. split.
    - intros [[] | H]. assumption.
    - auto. }
  split; [apply H|].
  intros n r Hn Hr. apply H. exists n, r. repeat split; [assumption|].
  unfold try_block. destruct r as [parsed|]; [|reflexivity].
  destruct parsed; try reflexivity.
  exfalso. apply (Hr l). reflexivity.
Qed.

End AppMore.
